(** * Notification delivery subsystem ([notification_system.py])

    A shallow embedding of the notification store, template engine, rule
    engine, delivery worker and facade, followed by the properties of the
    subsystem that were checked against it.

    Conventions of the embedding.
    - Python [int] is [Z]; [str] is [string], each character standing for
      one code point below 256; [Optional[T]] is [option T].
    - A naive [datetime] is the number of microseconds elapsed since
      0001-01-01T00:00:00, a [timedelta] a number of microseconds.
    - The three SQLite tables are a finite map keyed by the primary key
      (notifications), and an append-only list (notification_audit); the
      alert_rules table is created by the source but never read or
      written.  The schema statements are taken to succeed and the
      database file to be reliable: a store operation only fails for a
      reason that lies in its arguments (a value that [json.dumps] rejects,
      an integer outside SQLite's 64-bit range).
    - [threading.Lock], the [logging] calls and [time.sleep] have no
      effect on the data and are left out; the worker is followed one
      processing step at a time.
    - The clock, the mail transport and the random part of notification
      ids are inputs of the model, collected in [Env].
    - An exception that the source catches is followed into its handler:
      a fallible step returns [option] or a sum, and the handler's branch
      says what is left of the state.  Python integers are unbounded;
      the time and memory that arithmetic on them takes are not
      modelled. *)

From Stdlib Require Import ZArith String Ascii List DecimalString Lia.
From stdpp Require Import base option list strings gmap fin_maps sorting.

Open Scope string_scope.
Open Scope list_scope.
Open Scope Z_scope.

(* ================================================================== *)
(** * Enumerations *)
(* ================================================================== *)

Inductive NotificationLevel := DEBUG | INFO | WARNING | ERROR | CRITICAL.

Inductive NotificationStatus := PENDING | SENT | FAILED | RETRYING | ARCHIVED.

Inductive AlertRuleType := THRESHOLD | EVENT | TIME_BASED | PATTERN.

#[global] Instance NotificationLevel_eq_dec : EqDecision NotificationLevel.
Proof. solve_decision. Defined.

#[global] Instance NotificationStatus_eq_dec : EqDecision NotificationStatus.
Proof. solve_decision. Defined.

#[global] Instance AlertRuleType_eq_dec : EqDecision AlertRuleType.
Proof. solve_decision. Defined.

(** [Enum.value] and the lookup by value [Enum(value)]; the lookup raises
    [ValueError] on an unknown value, here [None]. *)

Definition level_value (l : NotificationLevel) : string :=
  match l with
  | DEBUG => "DEBUG" | INFO => "INFO" | WARNING => "WARNING"
  | ERROR => "ERROR" | CRITICAL => "CRITICAL"
  end.

Definition level_of_value (s : string) : option NotificationLevel :=
  if String.eqb s "DEBUG" then Some DEBUG
  else if String.eqb s "INFO" then Some INFO
  else if String.eqb s "WARNING" then Some WARNING
  else if String.eqb s "ERROR" then Some ERROR
  else if String.eqb s "CRITICAL" then Some CRITICAL
  else None.

Definition status_value (s : NotificationStatus) : string :=
  match s with
  | PENDING => "PENDING" | SENT => "SENT" | FAILED => "FAILED"
  | RETRYING => "RETRYING" | ARCHIVED => "ARCHIVED"
  end.

Definition status_of_value (s : string) : option NotificationStatus :=
  if String.eqb s "PENDING" then Some PENDING
  else if String.eqb s "SENT" then Some SENT
  else if String.eqb s "FAILED" then Some FAILED
  else if String.eqb s "RETRYING" then Some RETRYING
  else if String.eqb s "ARCHIVED" then Some ARCHIVED
  else None.

Definition rule_type_value (t : AlertRuleType) : string :=
  match t with
  | THRESHOLD => "THRESHOLD" | EVENT => "EVENT"
  | TIME_BASED => "TIME_BASED" | PATTERN => "PATTERN"
  end.

(* ================================================================== *)
(** * Dates and times *)
(* ================================================================== *)

Definition datetime := Z.
Definition timedelta := Z.

Definition US_PER_SECOND : Z := 1000000.
Definition US_PER_MINUTE : Z := 60 * US_PER_SECOND.
Definition US_PER_DAY : Z := 86400 * US_PER_SECOND.

(** [datetime.min] is 0; [datetime.max] is 9999-12-31T23:59:59.999999,
    the last microsecond of day 3652059. *)
Definition DATETIME_MAX : datetime := 3652059 * US_PER_DAY - 1.

Definition timedelta_minutes (m : Z) : timedelta := m * US_PER_MINUTE.

(** [timedelta(days=d)] raises [OverflowError] beyond 999999999 days. *)
Definition timedelta_days (d : Z) : option timedelta :=
  if (Z.abs d <=? 999999999) then Some (d * US_PER_DAY) else None.

(** [dt - td], which raises [OverflowError] when the result leaves the
    range of [datetime]. *)
Definition datetime_sub (dt : datetime) (td : timedelta) : option datetime :=
  let r := dt - td in
  if (0 <=? r) && (r <=? DATETIME_MAX) then Some r else None.

(** [dt + td], which raises [OverflowError] in the same way. *)
Definition datetime_add (dt : datetime) (td : timedelta) : option datetime :=
  let r := dt + td in
  if (0 <=? r) && (r <=? DATETIME_MAX) then Some r else None.

(** The quotient [a / b] rounded to the nearest integer, ties to the even
    one, for [0 < b]. *)
Definition div_round_half_even (a b : Z) : Z :=
  let q := a / b in
  let r := a mod b in
  if (b <? 2 * r) || ((2 * r =? b) && Z.odd q) then q + 1 else q.

(** The number [min(2 ** retry_count, 60)].  With a counter that is not
    negative the power is an [int].  With a negative counter it is the
    float [2.0 ** retry_count], which is below 1 and so the minimum (an
    exact power of two, or 0.0 below [2 ** -1074]); the conversion of the
    exponent to float raises [OverflowError] from [2 ** 1024 - 2 ** 970]
    on. *)
Inductive minutes :=
| IntMinutes (m : Z)
| FloatMinutes (exponent : Z).

Definition backoff_minutes (retry_count : Z) : option minutes :=
  if 0 <=? retry_count then Some (IntMinutes (Z.min (2 ^ retry_count) 60))
  else if 2 ^ 1024 - 2 ^ 970 <=? - retry_count then None
  else Some (FloatMinutes retry_count).

(** [timedelta(minutes=m)]: a float number of minutes is rounded to the
    nearest microsecond, ties to even; the float [2.0 ** e] gives
    [60000000 / 2 ** -e] rounded, which is 0 from [e = -27] down. *)
Definition timedelta_of_minutes (m : minutes) : timedelta :=
  match m with
  | IntMinutes m => timedelta_minutes m
  | FloatMinutes e => div_round_half_even US_PER_MINUTE (2 ^ (- e))
  end.

Arguments datetime_add : simpl never.
Arguments backoff_minutes : simpl never.
Arguments timedelta_of_minutes : simpl never.

(** [datetime.isoformat()] of a naive datetime:
    [YYYY-MM-DDTHH:MM:SS], followed by [.ffffff] when the microsecond part
    is not zero.  The calendar date follows [datetime._ord2ymd]. *)

Definition Z_to_string (z : Z) : string := NilZero.string_of_int (Z.to_int z).

Fixpoint zeros (n : nat) : string :=
  match n with O => EmptyString | S n' => "0" +:+ zeros n' end.

Definition zero_pad (width : nat) (z : Z) : string :=
  let s := Z_to_string z in
  zeros (width - String.length s) +:+ s.

Definition DAYS_IN_MONTH (month : Z) (leap : bool) : Z :=
  if month =? 2 then (if leap then 29 else 28)
  else if (month =? 4) || (month =? 6) || (month =? 9) || (month =? 11)
       then 30 else 31.

Definition DAYS_BEFORE_MONTH (month : Z) : Z :=
  nth (Z.to_nat month)
      [0; 0; 31; 59; 90; 120; 151; 181; 212; 243; 273; 304; 334] 0.

Definition ord2ymd (ordinal : Z) : Z * Z * Z :=
  let n := ordinal - 1 in
  let n400 := n / 146097 in
  let n := n mod 146097 in
  let year := n400 * 400 + 1 in
  let n100 := n / 36524 in
  let n := n mod 36524 in
  let n4 := n / 1461 in
  let n := n mod 1461 in
  let n1 := n / 365 in
  let n := n mod 365 in
  let year := year + n100 * 100 + n4 * 4 + n1 in
  if (n1 =? 4) || (n100 =? 4) then (year - 1, 12, 31)
  else
    let leapyear := (n1 =? 3) && (negb (n4 =? 24) || (n100 =? 3)) in
    let month := Z.shiftr (n + 50) 5 in
    let preceding :=
      DAYS_BEFORE_MONTH month + (if (2 <? month) && leapyear then 1 else 0) in
    if n <? preceding
    then
      let month := month - 1 in
      let preceding := preceding - DAYS_IN_MONTH month leapyear in
      (year, month, n - preceding + 1)
    else (year, month, n - preceding + 1).

Definition isoformat (t : datetime) : string :=
  let '(y, m, d) := ord2ymd (t / US_PER_DAY + 1) in
  let r := t mod US_PER_DAY in
  let us := r mod US_PER_SECOND in
  let s := r / US_PER_SECOND in
  zero_pad 4 y +:+ "-" +:+ zero_pad 2 m +:+ "-" +:+ zero_pad 2 d +:+ "T"
  +:+ zero_pad 2 (s / 3600) +:+ ":" +:+ zero_pad 2 (s / 60 mod 60) +:+ ":"
  +:+ zero_pad 2 (s mod 60)
  +:+ (if us =? 0 then EmptyString else "." +:+ zero_pad 6 us).

(* ================================================================== *)
(** * Python values and JSON *)
(* ================================================================== *)

(** The values behind the annotation [Any]: the JSON-native ones, tuples
    (which [json.dumps] writes as arrays) and [PyObject], any other object
    ([datetime], [set], an exception, ...), which [json.dumps] rejects
    with [TypeError].  Dictionaries have string keys, as [Dict[str, Any]]
    has, and keep their insertion order.  Floats are not represented. *)

#[local] Unset Elimination Schemes.

Inductive pyval :=
| PyNone
| PyBool (b : bool)
| PyInt (z : Z)
| PyStr (s : string)
| PyList (items : list pyval)
| PyTuple (items : list pyval)
| PyDict (members : list (string * pyval))
| PyObject (class_name : string).

(** A JSON document, the content of a TEXT column written by
    [json.dumps] and read back by [json.loads]. *)

Inductive json :=
| JNull
| JBool (b : bool)
| JInt (z : Z)
| JStr (s : string)
| JArr (items : list json)
| JObj (members : list (string * json)).

#[local] Set Elimination Schemes.

Definition pydict := list (string * pyval).

(** [json.dumps(v)] up to the text encoding: the document written, or
    [None] for the [TypeError] raised at the first object that is not
    serializable. *)
Fixpoint to_json (v : pyval) : option json :=
  let fix items (l : list pyval) : option (list json) :=
    match l with
    | [] => Some []
    | x :: l' =>
        match to_json x with
        | Some j => match items l' with
                    | Some js => Some (j :: js)
                    | None => None
                    end
        | None => None
        end
    end in
  let fix members (d : list (string * pyval)) : option (list (string * json)) :=
    match d with
    | [] => Some []
    | (k, x) :: d' =>
        match to_json x with
        | Some j => match members d' with
                    | Some js => Some ((k, j) :: js)
                    | None => None
                    end
        | None => None
        end
    end in
  match v with
  | PyNone => Some JNull
  | PyBool b => Some (JBool b)
  | PyInt z => Some (JInt z)
  | PyStr s => Some (JStr s)
  | PyList l => JArr <$> items l
  | PyTuple l => JArr <$> items l
  | PyDict d => JObj <$> members d
  | PyObject _ => None
  end.

(** [json.loads]: arrays come back as lists, objects as dictionaries. *)
Fixpoint of_json (j : json) : pyval :=
  match j with
  | JNull => PyNone
  | JBool b => PyBool b
  | JInt z => PyInt z
  | JStr s => PyStr s
  | JArr l => PyList (map of_json l)
  | JObj d => PyDict (map (fun kv => (fst kv, of_json (snd kv))) d)
  end.

(** The values that [json.loads (json.dumps v)] gives back unchanged:
    no tuple and no foreign object at any depth. *)
Fixpoint json_native (v : pyval) : bool :=
  match v with
  | PyNone | PyBool _ | PyInt _ | PyStr _ => true
  | PyList l => forallb json_native l
  | PyTuple _ => false
  | PyDict d => forallb (fun kv => json_native (snd kv)) d
  | PyObject _ => false
  end.

(** ** The text of a document

    [json.JSONEncoder] with [ensure_ascii=True]: a string is quoted, the
    quote and the backslash are escaped, and every character outside
    [' '..'~'] is written as a short escape or as [\uXXXX]. *)

Definition DQUOTE : ascii := ascii_of_N 34.

Definition hex_digit (n : N) : ascii :=
  if (n <? 10)%N then ascii_of_N (48 + n) else ascii_of_N (87 + n).

Definition escape_char (c : ascii) : string :=
  let n := N_of_ascii c in
  if (n =? 34)%N then String "\" (String DQUOTE EmptyString)
  else if (n =? 92)%N then "\\"
  else if (n =? 10)%N then "\n"
  else if (n =? 13)%N then "\r"
  else if (n =? 9)%N then "\t"
  else if (n =? 8)%N then "\b"
  else if (n =? 12)%N then "\f"
  else if (32 <=? n)%N && (n <=? 126)%N then String c EmptyString
  else "\u00" +:+ String (hex_digit (n / 16)) (String (hex_digit (n mod 16)) EmptyString).

Fixpoint escape_string (s : string) : string :=
  match s with
  | EmptyString => EmptyString
  | String c s' => escape_char c +:+ escape_string s'
  end.

Definition encode_basestring_ascii (s : string) : string :=
  String DQUOTE (escape_string s +:+ String DQUOTE EmptyString).

Fixpoint spaces (n : nat) : string :=
  match n with O => EmptyString | S n' => String " " (spaces n') end.

Definition NEWLINE : string := String (ascii_of_N 10) EmptyString.

(** The line break that opens a nesting level: absent without [indent]. *)
Definition newline_indent (indent : option nat) (level : nat) : string :=
  match indent with
  | None => EmptyString
  | Some w => NEWLINE +:+ spaces (w * level)
  end.

Definition item_separator (indent : option nat) : string :=
  match indent with None => ", " | Some _ => "," end.

(** [json.dumps(..., indent=indent)] on a document ([_iterencode]). *)
Fixpoint json_text (indent : option nat) (level : nat) (j : json) : string :=
  let fix items (first : bool) (l : list json) : string :=
    match l with
    | [] => EmptyString
    | x :: l' =>
        (if first then newline_indent indent (S level)
         else item_separator indent +:+ newline_indent indent (S level))
        +:+ json_text indent (S level) x +:+ items false l'
    end in
  let fix members (first : bool) (d : list (string * json)) : string :=
    match d with
    | [] => EmptyString
    | (k, x) :: d' =>
        (if first then newline_indent indent (S level)
         else item_separator indent +:+ newline_indent indent (S level))
        +:+ encode_basestring_ascii k +:+ ": "
        +:+ json_text indent (S level) x +:+ members false d'
    end in
  match j with
  | JNull => "null"
  | JBool true => "true"
  | JBool false => "false"
  | JInt z => Z_to_string z
  | JStr s => encode_basestring_ascii s
  | JArr [] => "[]"
  | JArr l => "[" +:+ items true l +:+ newline_indent indent level +:+ "]"
  | JObj [] => "{}"
  | JObj d => "{" +:+ members true d +:+ newline_indent indent level +:+ "}"
  end.

(** [json.dumps(v, indent=indent)] as text; [None] is [TypeError]. *)
Definition json_dumps (indent : option nat) (v : pyval) : option string :=
  json_text indent 0 <$> to_json v.

(* ================================================================== *)
(** * Data model *)
(* ================================================================== *)

(** ** [NotificationTemplate] *)

Record NotificationTemplate := {
  template_name : string;
  template_subject : string;
  template_body : string;
  template_type : string;
  variables : list string
}.

(** ** [AlertRule]

    A condition is a Python callable: it returns a truth value or raises
    an exception (a subclass of [Exception]). *)

Inductive condition_result :=
| Returns (b : bool)
| Raises (message : string).

Record AlertRule := {
  rule_name : string;
  rule_type : AlertRuleType;
  condition : pydict -> condition_result;
  notification_level : NotificationLevel;
  rule_recipients : list string;
  enabled : bool;
  description : string
}.

(** ** [Notification] *)

Record Notification := {
  notification_id : string;
  level : NotificationLevel;
  subject : string;
  body : string;
  recipients : list string;
  status : NotificationStatus;
  created_at : datetime;
  sent_at : option datetime;
  retry_count : Z;
  max_retries : Z;
  next_retry : option datetime;
  error_message : option string;
  metadata : pydict
}.

(** Attribute assignments [notification.f = v]. *)

Definition set_status (v : NotificationStatus) (n : Notification) : Notification :=
  {| notification_id := notification_id n; level := level n;
     subject := subject n; body := body n; recipients := recipients n;
     status := v; created_at := created_at n; sent_at := sent_at n;
     retry_count := retry_count n; max_retries := max_retries n;
     next_retry := next_retry n; error_message := error_message n;
     metadata := metadata n |}.

Definition set_sent_at (v : option datetime) (n : Notification) : Notification :=
  {| notification_id := notification_id n; level := level n;
     subject := subject n; body := body n; recipients := recipients n;
     status := status n; created_at := created_at n; sent_at := v;
     retry_count := retry_count n; max_retries := max_retries n;
     next_retry := next_retry n; error_message := error_message n;
     metadata := metadata n |}.

Definition set_retry_count (v : Z) (n : Notification) : Notification :=
  {| notification_id := notification_id n; level := level n;
     subject := subject n; body := body n; recipients := recipients n;
     status := status n; created_at := created_at n; sent_at := sent_at n;
     retry_count := v; max_retries := max_retries n;
     next_retry := next_retry n; error_message := error_message n;
     metadata := metadata n |}.

Definition set_next_retry (v : option datetime) (n : Notification) : Notification :=
  {| notification_id := notification_id n; level := level n;
     subject := subject n; body := body n; recipients := recipients n;
     status := status n; created_at := created_at n; sent_at := sent_at n;
     retry_count := retry_count n; max_retries := max_retries n;
     next_retry := v; error_message := error_message n;
     metadata := metadata n |}.

Definition set_error_message (v : option string) (n : Notification) : Notification :=
  {| notification_id := notification_id n; level := level n;
     subject := subject n; body := body n; recipients := recipients n;
     status := status n; created_at := created_at n; sent_at := sent_at n;
     retry_count := retry_count n; max_retries := max_retries n;
     next_retry := next_retry n; error_message := v;
     metadata := metadata n |}.

Definition set_metadata (v : pydict) (n : Notification) : Notification :=
  {| notification_id := notification_id n; level := level n;
     subject := subject n; body := body n; recipients := recipients n;
     status := status n; created_at := created_at n; sent_at := sent_at n;
     retry_count := retry_count n; max_retries := max_retries n;
     next_retry := next_retry n; error_message := error_message n;
     metadata := v |}.

(** The dataclass constructor with its defaults, as [send_notification]
    calls it; [now] is the reading of [datetime.utcnow] taken by the
    default factory of [created_at]. *)
Definition new_notification (id : string) (lvl : NotificationLevel)
    (subj bdy : string) (rcpts : list string) (meta : pydict)
    (now : datetime) : Notification :=
  {| notification_id := id; level := lvl; subject := subj; body := bdy;
     recipients := rcpts; status := PENDING; created_at := now;
     sent_at := None; retry_count := 0; max_retries := 3;
     next_retry := None; error_message := None; metadata := meta |}.

(** ** Rows of the store

    A row of table [notifications], one field per column.  The TEXT
    columns that hold [isoformat()] output are represented by the datetime
    they denote: [fromisoformat] inverts [isoformat], and on naive
    datetimes the byte order of the texts, which the [<] of SQLite
    compares, is the order of the instants.  The TEXT columns that hold
    [json.dumps] output are represented by the document. *)

Record Row := {
  col_id : string;
  col_level : string;
  col_subject : string;
  col_body : string;
  col_recipients : json;
  col_status : string;
  col_created_at : datetime;
  col_sent_at : option datetime;
  col_retry_count : Z;
  col_max_retries : Z;
  col_next_retry : option datetime;
  col_error_message : option string;
  col_metadata : option json
}.

Definition set_col_status (v : string) (r : Row) : Row :=
  {| col_id := col_id r; col_level := col_level r;
     col_subject := col_subject r; col_body := col_body r;
     col_recipients := col_recipients r; col_status := v;
     col_created_at := col_created_at r; col_sent_at := col_sent_at r;
     col_retry_count := col_retry_count r;
     col_max_retries := col_max_retries r;
     col_next_retry := col_next_retry r;
     col_error_message := col_error_message r;
     col_metadata := col_metadata r |}.

(** A row of table [notification_audit]; the AUTOINCREMENT key is the
    position in the log. *)
Record AuditRow := {
  audit_notification_id : string;
  audit_event : string;
  audit_timestamp : datetime;
  audit_details : option json
}.

(** SQLite stores a Python [int] only if it fits in 64 bits; the driver
    raises [OverflowError] otherwise. *)
Definition sqlite_integer (z : Z) : option Z :=
  if (- 2 ^ 63 <=? z) && (z <? 2 ^ 63) then Some z else None.

(** The parameter tuple of the INSERT in [save_notification]. *)
Definition notification_to_row (n : Notification) : option Row :=
  match to_json (PyList (map PyStr (recipients n))),
        sqlite_integer (retry_count n),
        sqlite_integer (max_retries n),
        to_json (PyDict (metadata n)) with
  | Some rcpts, Some rc, Some mr, Some meta =>
      Some {| col_id := notification_id n;
              col_level := level_value (level n);
              col_subject := subject n;
              col_body := body n;
              col_recipients := rcpts;
              col_status := status_value (status n);
              col_created_at := created_at n;
              col_sent_at := sent_at n;
              col_retry_count := rc;
              col_max_retries := mr;
              col_next_retry := next_retry n;
              col_error_message := error_message n;
              col_metadata := Some meta |}
  | _, _, _, _ => None
  end.

(** What the annotations [List[str]] and [Dict[str, Any]] admit of a
    loaded document. *)
Definition as_str_list (v : pyval) : option (list string) :=
  match v with
  | PyList l =>
      mapM (fun x => match x with PyStr s => Some s | _ => None end) l
  | _ => None
  end.

Definition as_dict (v : pyval) : option pydict :=
  match v with PyDict d => Some d | _ => None end.

(** [_row_to_notification]; [None] when one of the conversions raises,
    or when the loaded recipients or metadata are not of the annotated
    type (never the case for a row written by [save_notification]). *)
Definition _row_to_notification (row : Row) : option Notification :=
  match level_of_value (col_level row),
        as_str_list (of_json (col_recipients row)),
        status_of_value (col_status row),
        match col_metadata row with
        | Some j => as_dict (of_json j)
        | None => Some []
        end with
  | Some lvl, Some rcpts, Some st, Some meta =>
      Some {| notification_id := col_id row;
              level := lvl;
              subject := col_subject row;
              body := col_body row;
              recipients := rcpts;
              status := st;
              created_at := col_created_at row;
              sent_at := col_sent_at row;
              retry_count := col_retry_count row;
              max_retries := col_max_retries row;
              next_retry := col_next_retry row;
              error_message := col_error_message row;
              metadata := meta |}
  | _, _, _, _ => None
  end.

(* ================================================================== *)
(** * The environment and the state *)
(* ================================================================== *)

(** What [SMTPEmailSender.send_email] (or any object put in its place)
    does when called: it returns a pair [(success, error)] or raises. *)
Inductive send_result :=
| Returned (success : bool) (error : option string)
| Raised (message : string).

(** The transport.  Its answer may change from one call to the next, so
    it also depends on the number of calls made before. *)
Record SMTPEmailSender := {
  send_email : nat -> list string -> string -> string -> bool -> send_result
}.

Record Env := {
  (** the reading of the [n]-th call of [datetime.utcnow()] *)
  clock : nat -> datetime;
  (** [NotificationWorker.email_sender] *)
  email_sender : option SMTPEmailSender;
  (** the [n]-th identifier that [generate_notification_id] produces (a
      time stamp and eight digits of an MD5 over a random number) *)
  fresh_id : nat -> string
}.

(** [NotificationWorker.stats] *)
Record Stats := {
  sent : Z;
  failed : Z;
  retried : Z;
  processed : Z
}.

Record World := {
  (** table [notifications], by primary key *)
  notifications : gmap string Row;
  (** table [notification_audit], oldest entry first *)
  notification_audit : list AuditRow;
  (** [AlertRuleManager.rules], in insertion order *)
  rules : list (string * AlertRule);
  (** [NotificationWorker.queue], next item first *)
  queue : list Notification;
  stats : Stats;
  (** calls made so far to the clock, the transport and the id generator *)
  utcnow_calls : nat;
  send_calls : nat;
  ids_generated : nat
}.

Definition set_notifications (v : gmap string Row) (w : World) : World :=
  {| notifications := v; notification_audit := notification_audit w;
     rules := rules w; queue := queue w; stats := stats w;
     utcnow_calls := utcnow_calls w; send_calls := send_calls w;
     ids_generated := ids_generated w |}.

Definition set_notification_audit (v : list AuditRow) (w : World) : World :=
  {| notifications := notifications w; notification_audit := v;
     rules := rules w; queue := queue w; stats := stats w;
     utcnow_calls := utcnow_calls w; send_calls := send_calls w;
     ids_generated := ids_generated w |}.

Definition set_rules (v : list (string * AlertRule)) (w : World) : World :=
  {| notifications := notifications w;
     notification_audit := notification_audit w;
     rules := v; queue := queue w; stats := stats w;
     utcnow_calls := utcnow_calls w; send_calls := send_calls w;
     ids_generated := ids_generated w |}.

Definition set_queue (v : list Notification) (w : World) : World :=
  {| notifications := notifications w;
     notification_audit := notification_audit w;
     rules := rules w; queue := v; stats := stats w;
     utcnow_calls := utcnow_calls w; send_calls := send_calls w;
     ids_generated := ids_generated w |}.

Definition set_stats (v : Stats) (w : World) : World :=
  {| notifications := notifications w;
     notification_audit := notification_audit w;
     rules := rules w; queue := queue w; stats := v;
     utcnow_calls := utcnow_calls w; send_calls := send_calls w;
     ids_generated := ids_generated w |}.

Definition set_utcnow_calls (v : nat) (w : World) : World :=
  {| notifications := notifications w;
     notification_audit := notification_audit w;
     rules := rules w; queue := queue w; stats := stats w;
     utcnow_calls := v; send_calls := send_calls w;
     ids_generated := ids_generated w |}.

Definition set_send_calls (v : nat) (w : World) : World :=
  {| notifications := notifications w;
     notification_audit := notification_audit w;
     rules := rules w; queue := queue w; stats := stats w;
     utcnow_calls := utcnow_calls w; send_calls := v;
     ids_generated := ids_generated w |}.

Definition set_ids_generated (v : nat) (w : World) : World :=
  {| notifications := notifications w;
     notification_audit := notification_audit w;
     rules := rules w; queue := queue w; stats := stats w;
     utcnow_calls := utcnow_calls w; send_calls := send_calls w;
     ids_generated := v |}.

(** ** A state monad over [World] *)

Definition M (A : Type) : Type := World -> A * World.

Definition ret {A} (a : A) : M A := fun w => (a, w).

Definition bind {A B} (m : M A) (k : A -> M B) : M B :=
  fun w => let (a, w') := m w in k a w'.

Definition get_world : M World := fun w => (w, w).

Definition modify (f : World -> World) : M unit := fun w => (tt, f w).

Declare Scope monad_scope.
Delimit Scope monad_scope with monad.
Notation "'let*' x ':=' m 'in' k" := (bind m (fun x => k))
  (at level 10, x pattern, m at level 100, k at level 200) : monad_scope.
Notation "m ';;' k" := (bind m (fun _ => k))
  (at level 100, k at level 200, right associativity) : monad_scope.
Open Scope monad_scope.

Section WithEnv.

Variable env : Env.

(** [datetime.utcnow()] *)
Definition utcnow : M datetime :=
  fun w => (clock env (utcnow_calls w),
            set_utcnow_calls (S (utcnow_calls w)) w).

(* ================================================================== *)
(** * [NotificationDatabase] *)
(* ================================================================== *)

(** [save_notification]: INSERT OR REPLACE of the row; [false] when
    building the parameters raises. *)
Definition save_notification (n : Notification) : M bool :=
  match notification_to_row n with
  | Some row =>
      modify (fun w =>
        set_notifications (<[notification_id n := row]> (notifications w)) w);;
      ret true
  | None => ret false
  end.

(** [get_notification]: the row of that key, converted; [None] when
    there is none or when the conversion raises. *)
Definition get_notification (id : string) : M (option Notification) :=
  let* w := get_world in
  match notifications w !! id with
  | Some row => ret (_row_to_notification row)
  | None => ret None
  end.

(** [log_audit_event]: the time stamp is read first, then the details
    are dumped; an empty or absent dictionary is stored as NULL. *)
Definition log_audit_event (id event : string) (details : option pydict)
  : M bool :=
  let* now := utcnow in
  let dumped :=
    match details with
    | None | Some [] => Some None
    | Some d => Some <$> to_json (PyDict d)
    end in
  match dumped with
  | Some text =>
      modify (fun w =>
        set_notification_audit
          (notification_audit w ++
             [{| audit_notification_id := id; audit_event := event;
                 audit_timestamp := now; audit_details := text |}]) w);;
      ret true
  | None => ret false
  end.

(** [UPDATE t SET ... WHERE ...] and its [rowcount]. *)
Definition sql_update (where_ : Row -> bool) (set_ : Row -> Row)
    (t : gmap string Row) : gmap string Row * Z :=
  ((fun r => if where_ r then set_ r else r) <$> t,
   Z.of_nat (size (filter (fun kr => where_ (snd kr) = true) t))).

(** [cleanup_old_notifications]: the cutoff is computed first, and the
    sweep returns 0 without touching the table when that raises. *)
Definition cleanup_old_notifications (days : Z) : M Z :=
  let* now := utcnow in
  match td ← timedelta_days days; datetime_sub now td with
  | Some cutoff_date =>
      let* w := get_world in
      let (t, rowcount) :=
        sql_update
          (fun r => (col_created_at r <? cutoff_date)
                    && String.eqb (col_status r) (status_value SENT))
          (set_col_status (status_value ARCHIVED))
          (notifications w) in
      modify (set_notifications t);;
      ret rowcount
  | None => ret 0
  end.

(* ================================================================== *)
(** * [AlertRule] and [AlertRuleManager] *)
(* ================================================================== *)

(** [AlertRule.matches]: an exception of the condition is caught and
    the rule does not match. *)
Definition matches (rule : AlertRule) (event_data : pydict) : bool :=
  match condition rule event_data with
  | Returns b => b
  | Raises _ => false
  end.

(** [rules[name] = rule] on an insertion-ordered dictionary: a known key
    keeps its place and takes the new value, a new key goes last. *)
Fixpoint dict_set {V} (k : string) (v : V) (d : list (string * V))
  : list (string * V) :=
  match d with
  | [] => [(k, v)]
  | (k', v') :: d' =>
      if String.eqb k' k then (k, v) :: d' else (k', v') :: dict_set k v d'
  end.

(** [rules.get(name)] *)
Fixpoint dict_get {V} (k : string) (d : list (string * V)) : option V :=
  match d with
  | [] => None
  | (k', v) :: d' => if String.eqb k' k then Some v else dict_get k d'
  end.

Definition register_rule (rule : AlertRule) : M bool :=
  modify (fun w => set_rules (dict_set (rule_name rule) rule (rules w)) w);;
  ret true.

Definition get_enabled_rules : M (list AlertRule) :=
  let* w := get_world in
  ret (filter (fun r => enabled r = true) (map snd (rules w))).

(** [evaluate_event]: the loop appends the rules that match. *)
Definition evaluate_event (event_data : pydict) : M (list AlertRule) :=
  let* enabled_rules := get_enabled_rules in
  ret (fold_left
         (fun matched_rules rule =>
            if matches rule event_data then matched_rules ++ [rule]
            else matched_rules)
         enabled_rules []).

(* ================================================================== *)
(** * [NotificationWorker] *)
(* ================================================================== *)

Definition add_notification (n : Notification) : M unit :=
  modify (fun w => set_queue (queue w ++ [n]) w).

Definition incr_sent : M unit :=
  modify (fun w =>
    set_stats {| sent := sent (stats w) + 1; failed := failed (stats w);
                 retried := retried (stats w);
                 processed := processed (stats w) |} w).

Definition incr_failed : M unit :=
  modify (fun w =>
    set_stats {| sent := sent (stats w); failed := failed (stats w) + 1;
                 retried := retried (stats w);
                 processed := processed (stats w) |} w).

Definition incr_retried : M unit :=
  modify (fun w =>
    set_stats {| sent := sent (stats w); failed := failed (stats w);
                 retried := retried (stats w) + 1;
                 processed := processed (stats w) |} w).

Definition incr_processed : M unit :=
  modify (fun w =>
    set_stats {| sent := sent (stats w); failed := failed (stats w);
                 retried := retried (stats w);
                 processed := processed (stats w) + 1 |} w).

(** [_send_notification]: the outcome, and the notification with its
    [error_message] updated.  Without a sender nothing is called. *)
Definition _send_notification (n : Notification) : M (bool * Notification) :=
  match email_sender env with
  | None => ret (false, n)
  | Some sender =>
      let* w := get_world in
      modify (set_send_calls (S (send_calls w)));;
      match send_email sender (send_calls w)
              (recipients n) (subject n) (body n) true with
      | Returned success error =>
          if success then ret (true, n)
          else ret (false, set_error_message error n)
      | Raised message =>
          ret (false, set_error_message (Some message) n)
      end
  end.

(** How the body of the [try] of [_process_notification] ends: at its
    last statement, or in the handler [except Exception], which only logs
    the error.  Either way the notification object keeps the assignments
    made before. *)
Inductive body_end :=
| Completed (n : Notification)
| Caught (n : Notification).

(** [_process_notification]; the result is the notification object as
    the call leaves it.  In the retry branch the counter and the status
    are assigned first; then [2 ** retry_count] may raise, and so may the
    addition to the clock reading when the retry time lies after
    [datetime.max]: the handler is entered with [next_retry] as it was,
    and neither the counters nor the store are touched. *)
Definition _process_notification (n : Notification) : M Notification :=
  if decide (status n = SENT) then ret n
  else
    let* (success, n) := _send_notification n in
    let* body :=
      (if success then
         let n := set_status SENT n in
         let* now := utcnow in
         let n := set_sent_at (Some now) n in
         incr_sent;;
         let* stamp := utcnow in
         log_audit_event (notification_id n) "SENT"
           (Some [("timestamp", PyStr (isoformat stamp))]);;
         ret (Completed n)
       else if retry_count n <? max_retries n then
         let n := set_retry_count (retry_count n + 1) n in
         let n := set_status RETRYING n in
         match backoff_minutes (retry_count n) with
         | None => ret (Caught n)
         | Some m =>
             let* now := utcnow in
             match datetime_add now (timedelta_of_minutes m) with
             | None => ret (Caught n)
             | Some retry_time =>
                 let n := set_next_retry (Some retry_time) n in
                 incr_retried;;
                 ret (Completed n)
             end
         end
       else
         let n := set_status FAILED n in
         incr_failed;;
         ret (Completed n)) in
    match body with
    | Completed n =>
        save_notification n;;
        incr_processed;;
        ret n
    | Caught n => ret n
    end.

(* ================================================================== *)
(** * [NotificationSystem] *)
(* ================================================================== *)

(** [generate_notification_id] reads the clock twice around the random
    draw. *)
Definition generate_notification_id : M string :=
  utcnow;;
  let* w := get_world in
  modify (set_ids_generated (S (ids_generated w)));;
  utcnow;;
  ret (fresh_id env (ids_generated w)).

(** [send_notification]; [metadata or {}] turns an absent dictionary
    into an empty one. *)
Definition send_notification (lvl : NotificationLevel)
    (rcpts : list string) (subj bdy : string) (meta : option pydict)
  : M string :=
  let* id := generate_notification_id in
  let* now := utcnow in
  let notification :=
    new_notification id lvl subj bdy rcpts (default [] meta) now in
  save_notification notification;;
  add_notification notification;;
  ret (notification_id notification).

(** The arguments [handle_event] builds for a rule. *)
Definition alert_subject (rule : AlertRule) : string :=
  "Alert: " +:+ rule_name rule.

Definition alert_body (rule : AlertRule) (dumped : string) : string :=
  "Alert rule '" +:+ rule_name rule +:+ "' triggered:"
  +:+ NEWLINE +:+ NEWLINE +:+ dumped.

Definition alert_metadata (rule : AlertRule) : pydict :=
  [("rule_name", PyStr (rule_name rule));
   ("rule_type", PyStr (rule_type_value (rule_type rule)))].

(** The loop of [handle_event] over the matched rules.  The body of each
    notification embeds [json.dumps(event_data, indent=2)]: when that
    raises, the exception leaves [handle_event] ([inl]). *)
Fixpoint handle_matched (event_data : pydict) (matched_rules : list AlertRule)
    (notification_ids : list string) : M (string + list string) :=
  match matched_rules with
  | [] => ret (inr notification_ids)
  | rule :: rest =>
      match json_dumps (Some 2%nat) (PyDict event_data) with
      | Some dumped =>
          let* notification_id :=
            send_notification (notification_level rule)
              (rule_recipients rule) (alert_subject rule)
              (alert_body rule dumped) (Some (alert_metadata rule)) in
          handle_matched event_data rest (notification_ids ++ [notification_id])
      | None => ret (inl "TypeError")
      end
  end.

Definition handle_event (event_data : pydict) : M (string + list string) :=
  let* matched_rules := evaluate_event event_data in
  handle_matched event_data matched_rules [].

End WithEnv.

(* ================================================================== *)
(** * [NotificationTemplate.render] *)
(* ================================================================== *)

(** [s.replace(old, new)] for a non-empty [old]: the text is scanned from
    the left, every occurrence found is replaced and the scan resumes
    behind it.  [skip] counts the characters of an occurrence that are
    still to be passed over. *)
Fixpoint replace_from (old new : string) (skip : nat) (s : string) : string :=
  match s with
  | EmptyString => EmptyString
  | String c s' =>
      match skip with
      | S k => replace_from old new k s'
      | O =>
          if String.prefix old s
          then new +:+ replace_from old new (String.length old - 1) s'
          else String c (replace_from old new 0 s')
      end
  end.

(** With an empty [old], [new] is inserted before every character and at
    the end. *)
Fixpoint replace_empty (new s : string) : string :=
  match s with
  | EmptyString => new
  | String c s' => new +:+ String c (replace_empty new s')
  end.

Definition str_replace (old new s : string) : string :=
  match old with
  | EmptyString => replace_empty new s
  | String _ _ => replace_from old new 0 s
  end.

(** The f-string [{{{{{var}}}}}]: the variable between two pairs of
    braces. *)
Definition placeholder (var : string) : string := "{{" +:+ var +:+ "}}".

Section Render.

(** The values of the context and their [str()]. *)
Context {Any : Type} (str : Any -> string).

(** The loop over [context.items()], in the order of the dictionary. *)
Definition render (t : NotificationTemplate) (context : list (string * Any))
  : string * string :=
  fold_left
    (fun sb item =>
       let placeholder := placeholder (fst item) in
       (str_replace placeholder (str (snd item)) (fst sb),
        str_replace placeholder (str (snd item)) (snd sb)))
    context
    (template_subject t, template_body t).

End Render.

(* ================================================================== *)
(** * Notions used in the statements *)
(* ================================================================== *)

(** ** Delivery attempts *)

(** The notification as [_send_notification] leaves it: untouched, or
    with a new [error_message]. *)
Definition with_error (e : option (option string)) (n : Notification)
  : Notification :=
  match e with Some e' => set_error_message e' n | None => n end.

(** Whether the delivery attempt made for [n] in state [w] succeeds. *)
Definition attempt_succeeds (env : Env) (n : Notification) (w : World) : bool :=
  fst (fst (_send_notification env n w)).

(** The time of the retry scheduled at clock reading [now] for a
    notification whose counter has become [retry_count], if it can be
    computed. *)
Definition retry_time (now : datetime) (retry_count : Z) : option datetime :=
  m ← backoff_minutes retry_count; datetime_add now (timedelta_of_minutes m).

(** The notification after an attempt with outcome [success], [now]
    being the clock reading taken by the branch. *)
Definition after_attempt (now : datetime) (success : bool) (n : Notification)
  : Notification :=
  if success then set_sent_at (Some now) (set_status SENT n)
  else if retry_count n <? max_retries n then
    let n' := set_status RETRYING (set_retry_count (retry_count n + 1) n) in
    match retry_time now (retry_count n + 1) with
    | Some t => set_next_retry (Some t) n'
    | None => n'
    end
  else set_status FAILED n.

(** A transport whose every call fails: it reports failure or raises.
    A worker without a sender fails every attempt as well. *)
Definition send_fails (r : send_result) : bool :=
  match r with Returned true _ => false | _ => true end.

Definition always_fails (env : Env) : Prop :=
  forall sender, email_sender env = Some sender ->
  forall k to_addresses subj bdy is_html,
    send_fails (send_email sender k to_addresses subj bdy is_html) = true.

(** ** Reachable notifications

    The notification objects that creation by the facade and processing
    by the worker can produce, each with the outcome of its most recent
    delivery attempt ([None] before the first one).  A processing step
    may run in any state of the world, so that calls for other
    notifications may come in between; the worker also processes the
    copies that it reads back from the store. *)
Inductive reachable (env : Env) : Notification -> option bool -> Prop :=
| reach_new id lvl subj bdy rcpts meta now :
    reachable env (new_notification id lvl subj bdy rcpts meta now) None
| reach_process n last w :
    reachable env n last ->
    reachable env (fst (_process_notification env n w))
      (if decide (status n = SENT) then last
       else Some (attempt_succeeds env n w))
| reach_reload n last row n' :
    reachable env n last ->
    notification_to_row n = Some row ->
    _row_to_notification row = Some n' ->
    reachable env n' last.

(** The clock reading that a processing step made in state [w] takes
    lies at least an hour before [datetime.max]
    (9999-12-31T23:59:59.999999), so that the time of the retry it may
    schedule can be represented. *)
Definition in_time (env : Env) (w : World) : Prop :=
  0 <= clock env (utcnow_calls w) <= 315537897599999999 - 3600000000.

(** The reachable notifications all of whose processing steps were made
    in time. *)
Inductive reachable_in_time (env : Env)
  : Notification -> option bool -> Prop :=
| in_time_new id lvl subj bdy rcpts meta now :
    reachable_in_time env
      (new_notification id lvl subj bdy rcpts meta now) None
| in_time_process n last w :
    reachable_in_time env n last ->
    in_time env w ->
    reachable_in_time env (fst (_process_notification env n w))
      (if decide (status n = SENT) then last
       else Some (attempt_succeeds env n w))
| in_time_reload n last row n' :
    reachable_in_time env n last ->
    notification_to_row n = Some row ->
    _row_to_notification row = Some n' ->
    reachable_in_time env n' last.

(** ** Sample inputs *)

Definition empty_world : World :=
  {| notifications := ∅; notification_audit := []; rules := [];
     queue := []; stats := {| sent := 0; failed := 0; retried := 0;
                              processed := 0 |};
     utcnow_calls := 0; send_calls := 0; ids_generated := 0 |}.

(** A worker without a sender, a clock that advances by one minute per
    reading from 2025-12-08T00:00:00, and numbered identifiers. *)
Definition offline_env : Env :=
  {| clock := fun k => 63900748800000000 + Z.of_nat k * US_PER_MINUTE;
     email_sender := None;
     fresh_id := fun k => "notif_" +:+ Z_to_string (Z.of_nat k) |}.

(** The same with a transport that refuses every message. *)
Definition refusing_sender : SMTPEmailSender :=
  {| send_email := fun _ _ _ _ _ =>
       Returned false (Some "SMTP error: connection refused") |}.

Definition refusing_env : Env :=
  {| clock := clock offline_env;
     email_sender := Some refusing_sender;
     fresh_id := fresh_id offline_env |}.

(** And with one that accepts every message. *)
Definition accepting_sender : SMTPEmailSender :=
  {| send_email := fun _ _ _ _ _ => Returned true None |}.

Definition accepting_env : Env :=
  {| clock := clock offline_env;
     email_sender := Some accepting_sender;
     fresh_id := fresh_id offline_env |}.

Definition sample_notification : Notification :=
  new_notification "notif_0" ERROR "Migration failed" "see log"
    ["admin@example.com"] [] 63900748800000000.

(** [sample_notification] after one, two and three failed attempts,
    and after the fourth; every step runs in the empty world. *)
Definition retried_once : Notification :=
  fst (_process_notification offline_env sample_notification empty_world).

Definition retried_twice : Notification :=
  fst (_process_notification offline_env retried_once empty_world).

Definition retried_thrice : Notification :=
  fst (_process_notification offline_env retried_twice empty_world).

Definition failed_for_good : Notification :=
  fst (_process_notification offline_env retried_thrice empty_world).

(** A transport that refuses its first message and accepts the others,
    and a world in which one message has already been handed to it. *)
Definition flaky_sender : SMTPEmailSender :=
  {| send_email := fun k _ _ _ _ =>
       match k with
       | O => Returned false (Some "SMTP error: timed out")
       | S _ => Returned true None
       end |}.

Definition flaky_env : Env :=
  {| clock := clock offline_env;
     email_sender := Some flaky_sender;
     fresh_id := fresh_id offline_env |}.

Definition one_call_made : World := set_send_calls 1 empty_world.

Definition refused_once : Notification :=
  fst (_process_notification flaky_env sample_notification empty_world).

Definition sent_after_retry : Notification :=
  fst (_process_notification flaky_env refused_once one_call_made).



(** ** JSON, one element at a time *)

(** The two inner loops of [to_json], for the statements about lists and
    dictionaries. *)
Fixpoint to_json_items (l : list pyval) : option (list json) :=
  match l with
  | [] => Some []
  | x :: l' =>
      match to_json x with
      | Some j => match to_json_items l' with
                  | Some js => Some (j :: js)
                  | None => None
                  end
      | None => None
      end
  end.

Fixpoint to_json_members (d : list (string * pyval))
  : option (list (string * json)) :=
  match d with
  | [] => Some []
  | (k, x) :: d' =>
      match to_json x with
      | Some j => match to_json_members d' with
                  | Some js => Some ((k, j) :: js)
                  | None => None
                  end
      | None => None
      end
  end.

(** Structural induction on values, with the hypothesis available for
    every element of a list, a tuple or a dictionary. *)
Section pyval_induction.

Variable P : pyval -> Prop.
Hypothesis HNone : P PyNone.
Hypothesis HBool : forall b, P (PyBool b).
Hypothesis HInt : forall z, P (PyInt z).
Hypothesis HStr : forall s, P (PyStr s).
Hypothesis HList : forall l, Forall P l -> P (PyList l).
Hypothesis HTuple : forall l, Forall P l -> P (PyTuple l).
Hypothesis HDict : forall d, Forall (fun kv => P (snd kv)) d -> P (PyDict d).
Hypothesis HObject : forall c, P (PyObject c).

Fixpoint pyval_ind (v : pyval) : P v :=
  match v with
  | PyNone => HNone
  | PyBool b => HBool b
  | PyInt z => HInt z
  | PyStr s => HStr s
  | PyList l =>
      HList l ((fix go (l : list pyval) : Forall P l :=
                  match l with
                  | [] => @List.Forall_nil _ P
                  | x :: l' => @List.Forall_cons _ P x l' (pyval_ind x) (go l')
                  end) l)
  | PyTuple l =>
      HTuple l ((fix go (l : list pyval) : Forall P l :=
                   match l with
                   | [] => @List.Forall_nil _ P
                   | x :: l' => @List.Forall_cons _ P x l' (pyval_ind x) (go l')
                   end) l)
  | PyDict d =>
      HDict d ((fix go (d : list (string * pyval))
                  : Forall (fun kv => P (snd kv)) d :=
                  match d with
                  | [] => @List.Forall_nil _ _
                  | kv :: d' =>
                      @List.Forall_cons _ (fun kv => P (snd kv)) kv d'
                        (pyval_ind (snd kv)) (go d')
                  end) d)
  | PyObject c => HObject c
  end.

End pyval_induction.

(** The metadata as it comes back from the store. *)
Definition metadata_round_trip (d : pydict) : option pydict :=
  j ← to_json (PyDict d); as_dict (of_json j).

(** ** The store *)

(** A notification whose metadata holds a tuple. *)
Definition tuple_notification : Notification :=
  new_notification "notif_1" INFO "Backup finished" "2 files copied"
    ["ops@example.com"]
    [("files", PyTuple [PyStr "a.txt"; PyStr "b.txt"])]
    63900748800000000.

(** The cutoff that [cleanup_old_notifications] computes in state [w],
    if the computation does not overflow. *)
Definition cutoff_date (env : Env) (w : World) (days : Z) : option datetime :=
  td ← timedelta_days days; datetime_sub (clock env (utcnow_calls w)) td.

(** [t] lies before the cutoff; nothing does when there is no cutoff. *)
Definition older_than (cutoff : option datetime) (t : datetime) : bool :=
  match cutoff with
  | Some c => t <? c
  | None => false
  end.

(** What the sweep makes of a stored notification. *)
Definition archive_if_old_sent (cutoff : option datetime) (n : Notification)
  : Notification :=
  if decide (status n = SENT) then
    if older_than cutoff (created_at n) then set_status ARCHIVED n else n
  else n.

(** What the sweep is to make of a stored notification, for a cutoff
    given in microseconds since 0001-01-01: a SENT notification created
    before the cutoff is archived, any other notification stays. *)
Definition archived_before (cutoff : Z) (n : Notification) : Notification :=
  if decide (status n = SENT /\ created_at n < cutoff)
  then set_status ARCHIVED n else n.

(** A store with a SENT and a FAILED notification of 2025-10-01 and a
    SENT one of 2025-11-30, swept on 2025-12-08 with [days = 30]. *)
Definition old_sent : Notification :=
  set_status SENT
    (new_notification "old_sent" INFO "s" "b" ["a@example.com"] []
       63894873600000000).

Definition old_failed : Notification :=
  set_status FAILED
    (new_notification "old_failed" INFO "s" "b" ["a@example.com"] []
       63894873600000000).

Definition recent_sent : Notification :=
  set_status SENT
    (new_notification "recent_sent" INFO "s" "b" ["a@example.com"] []
       63900057600000000).

Definition sample_store : World :=
  snd (save_notification recent_sent
         (snd (save_notification old_failed
                 (snd (save_notification old_sent empty_world))))).

(** ** Rules *)

#[global] Instance condition_result_eq_dec : EqDecision condition_result.
Proof. solve_decision. Defined.

(** The state after [register_rule] has been called for each rule of
    [rs] in turn. *)
Definition register_all (rs : list AlertRule) (w : World) : World :=
  fold_left (fun w rule => snd (register_rule rule w)) rs w.

(** The rule is enabled and its condition returns true on the event. *)
Definition selects (event_data : pydict) (rule : AlertRule) : Prop :=
  enabled rule = true /\ condition rule event_data = Returns true.

#[global] Instance selects_dec event_data rule :
  Decision (selects event_data rule).
Proof. unfold selects. apply _. Defined.

(** [event.get(key) == value] for a string value. *)
Definition field_is (key value : string) (event_data : pydict) : bool :=
  match dict_get key event_data with
  | Some (PyStr s) => String.eqb s value
  | _ => false
  end.

(** The first rule of the example at the end of the source file, a rule
    whose condition raises, a disabled rule, and a second rule on
    failures. *)
Definition migration_failure : AlertRule :=
  {| rule_name := "migration_failure"; rule_type := EVENT;
     condition := fun e => Returns (field_is "event_type" "migration_failed" e);
     notification_level := CRITICAL;
     rule_recipients := ["admin@example.com"];
     enabled := true;
     description := "Alert when migration operation fails" |}.

Definition broken_rule : AlertRule :=
  {| rule_name := "broken"; rule_type := THRESHOLD;
     condition := fun _ => Raises "could not convert string to float";
     notification_level := WARNING;
     rule_recipients := ["devops@example.com"];
     enabled := true;
     description := "" |}.

Definition disabled_rule : AlertRule :=
  {| rule_name := "disabled"; rule_type := PATTERN;
     condition := fun _ => Returns true;
     notification_level := INFO;
     rule_recipients := ["nobody@example.com"];
     enabled := false;
     description := "" |}.

Definition failure_page : AlertRule :=
  {| rule_name := "failure_page"; rule_type := EVENT;
     condition := fun e => Returns (field_is "event_type" "migration_failed" e);
     notification_level := ERROR;
     rule_recipients := ["oncall@example.com"; "lead@example.com"];
     enabled := true;
     description := "" |}.

Definition sample_rules : list AlertRule :=
  [migration_failure; broken_rule; disabled_rule; failure_page].

Definition failure_event : pydict :=
  [("event_type", PyStr "migration_failed"); ("failed_count", PyInt 3)].


(** ** The facade *)





Definition sample_registry : World := register_all sample_rules empty_world.

(** ** Templates *)

(** A template text seen as literal text and placeholders. *)
Inductive token :=
| Lit (text : string)
| Hole (key : string).

Definition token_text (t : token) : string :=
  match t with
  | Lit s => s
  | Hole k => placeholder k
  end.

Fixpoint tokens_text (ts : list token) : string :=
  match ts with
  | [] => EmptyString
  | t :: ts' => token_text t +:+ tokens_text ts'
  end.

(** No brace in the text. *)
Fixpoint no_brace (s : string) : bool :=
  match s with
  | EmptyString => true
  | String c s' =>
      negb (Ascii.eqb c "{") && negb (Ascii.eqb c "}") && no_brace s'
  end.

(** No opening brace in the text. *)
Fixpoint no_open (s : string) : bool :=
  match s with
  | EmptyString => true
  | String c s' => negb (Ascii.eqb c "{") && no_open s'
  end.

(** The decomposition is unambiguous when neither the literal text nor
    the keys contain a brace. *)
Definition plain_token (t : token) : bool :=
  match t with
  | Lit s => no_brace s
  | Hole k => no_brace k
  end.

(** The substitution the specification describes, on one token: a
    placeholder whose key is in the context becomes the [str()] of its
    value, any other token stays. *)
Definition substitute_token {Any} (str : Any -> string)
    (context : list (string * Any)) (t : token) : token :=
  match t with
  | Lit s => Lit s
  | Hole k =>
      match dict_get k context with
      | Some value => Lit (str value)
      | None => Hole k
      end
  end.

(** One pass of the loop of [render], on tokens: the placeholders of the
    key [k] are filled with [v]. *)
Definition fill (k v : string) (t : token) : token :=
  match t with
  | Lit s => Lit s
  | Hole k' => if String.eqb k' k then Lit v else Hole k'
  end.

(** One pass of the loop of [render], on one text. *)
Definition render_text {Any} (str : Any -> string) (s : string)
    (item : string * Any) : string :=
  str_replace (placeholder (fst item)) (str (snd item)) s.

(** The template of the example in the specification, with a subject,
    and a template for a context whose value is itself a placeholder. *)
Definition greeting : NotificationTemplate :=
  {| template_name := "greeting";
     template_subject := "Status of {{name}}";
     template_body := "Hi {{name}}, status {{status}}";
     template_type := "html";
     variables := ["name"; "status"] |}.

Definition greeting_subject_tokens : list token :=
  [Lit "Status of "; Hole "name"].

Definition greeting_body_tokens : list token :=
  [Lit "Hi "; Hole "name"; Lit ", status "; Hole "status"].

Definition hello : NotificationTemplate :=
  {| template_name := "hello";
     template_subject := "Greeting";
     template_body := "Hi {{name}}";
     template_type := "html";
     variables := ["name"] |}.

Definition hello_body_tokens : list token := [Lit "Hi "; Hole "name"].

Definition nested_context : list (string * string) :=
  [("name", "{{status}}"); ("status", "ok")].

(* ================================================================== *)
(** * Further operations of the subsystem *)
(* ================================================================== *)

(** ** Queries of the store *)

(** The rows of the table.  SQL leaves open in which order rows with
    the same [created_at] come out of an [ORDER BY created_at]; here they
    come as the sort leaves them. *)
Definition table_rows (w : World) : list Row :=
  map snd (map_to_list (notifications w)).

Definition created_before (r1 r2 : Row) : Prop :=
  col_created_at r1 <= col_created_at r2.

Definition created_after (r1 r2 : Row) : Prop :=
  col_created_at r2 <= col_created_at r1.

#[global] Instance created_before_dec : RelDecision created_before.
Proof. intros r1 r2. unfold created_before. apply _. Defined.

#[global] Instance created_after_dec : RelDecision created_after.
Proof. intros r1 r2. unfold created_after. apply _. Defined.

(** The WHERE clause [status IN ('PENDING', 'RETRYING')]. *)
Definition is_pending_row (r : Row) : bool :=
  String.eqb (col_status r) (status_value PENDING)
  || String.eqb (col_status r) (status_value RETRYING).

(** The list comprehension over the fetched rows: one failing conversion
    makes the whole query return the empty list. *)
Definition rows_to_notifications (rows : list Row) : list Notification :=
  default [] (mapM _row_to_notification rows).

(** [get_pending_notifications] *)
Definition get_pending_notifications : M (list Notification) :=
  let* w := get_world in
  ret (rows_to_notifications
         (merge_sort created_before
            (filter (fun r => is_pending_row r = true) (table_rows w)))).

(** [LIMIT ?]: a negative limit is no limit. *)
Definition sql_limit {A} (limit : Z) (l : list A) : list A :=
  if limit <? 0 then l else take (Z.to_nat limit) l.

(** [get_notifications_by_status] *)
Definition get_notifications_by_status (st : NotificationStatus) (limit : Z)
  : M (list Notification) :=
  let* w := get_world in
  match sqlite_integer limit with
  | Some limit =>
      ret (rows_to_notifications
             (sql_limit limit
                (merge_sort created_after
                   (filter (fun r => col_status r = status_value st)
                      (table_rows w)))))
  | None => ret []
  end.

(** ** [AlertRuleManager] *)

Definition get_rule (name : string) : M (option AlertRule) :=
  let* w := get_world in ret (dict_get name (rules w)).

Definition list_rules : M (list AlertRule) :=
  let* w := get_world in ret (map snd (rules w)).

(** [rule.enabled = v] *)
Definition set_enabled (v : bool) (rule : AlertRule) : AlertRule :=
  {| rule_name := rule_name rule; rule_type := rule_type rule;
     condition := condition rule;
     notification_level := notification_level rule;
     rule_recipients := rule_recipients rule; enabled := v;
     description := description rule |}.

(** The assignment to an attribute of the object stored under [name]:
    the entry keeps its place. *)
Fixpoint dict_update {V} (f : V -> V) (k : string) (d : list (string * V))
  : list (string * V) :=
  match d with
  | [] => []
  | (k', v) :: d' =>
      if String.eqb k' k then (k', f v) :: d'
      else (k', v) :: dict_update f k d'
  end.

Definition disable_rule (name : string) : M bool :=
  let* rule := get_rule name in
  match rule with
  | Some _ =>
      modify (fun w => set_rules (dict_update (set_enabled false) name
                                    (rules w)) w);;
      ret true
  | None => ret false
  end.

Definition enable_rule (name : string) : M bool :=
  let* rule := get_rule name in
  match rule with
  | Some _ =>
      modify (fun w => set_rules (dict_update (set_enabled true) name
                                    (rules w)) w);;
      ret true
  | None => ret false
  end.

(** ** [NotificationTemplateManager]

    The dictionary [templates] of the manager is passed to its
    operations. *)

Definition register_template (t : NotificationTemplate)
    (templates : list (string * NotificationTemplate))
  : list (string * NotificationTemplate) :=
  dict_set (template_name t) t templates.

Definition get_template (name : string)
    (templates : list (string * NotificationTemplate))
  : option NotificationTemplate :=
  dict_get name templates.

Definition list_templates
    (templates : list (string * NotificationTemplate)) : list string :=
  map fst templates.


(** ** One round of [_worker_loop]

    The round takes the next item of the queue, if there is one, and
    processes it; then it fetches the pending notifications and processes
    those whose [next_retry] is not set or not in the future.  The clock
    is read only for a notification whose [next_retry] is set. *)

Definition process_queue_item (env : Env) : M unit :=
  let* w := get_world in
  match queue w with
  | [] => ret tt
  | n :: rest =>
      modify (set_queue rest);;
      _process_notification env n;;
      ret tt
  end.

Definition process_if_due (env : Env) (n : Notification) : M unit :=
  match next_retry n with
  | Some t =>
      let* now := utcnow env in
      if now <? t then ret tt
      else (_process_notification env n;; ret tt)
  | None => _process_notification env n;; ret tt
  end.

Fixpoint process_pending (env : Env) (pending : list Notification) : M unit :=
  match pending with
  | [] => ret tt
  | n :: rest => process_if_due env n;; process_pending env rest
  end.

Definition worker_round (env : Env) : M unit :=
  process_queue_item env;;
  let* pending := get_pending_notifications in
  process_pending env pending.

(** ** Notions for the further properties *)

(** The value that [json.loads (json.dumps v)] returns: every tuple has
    become the list of its items. *)
Fixpoint listify (v : pyval) : pyval :=
  match v with
  | PyList l => PyList (map listify l)
  | PyTuple l => PyList (map listify l)
  | PyDict d => PyDict (map (fun kv => (fst kv, listify (snd kv))) d)
  | _ => v
  end.

Definition listify_dict (d : pydict) : pydict :=
  map (fun kv => (fst kv, listify (snd kv))) d.

(** An integer that SQLite can store. *)
Definition fits_sqlite (z : Z) : Prop := - 2 ^ 63 <= z < 2 ^ 63.

(** Every row of the table converts to a notification, as the rows that
    [save_notification] writes do. *)
Definition well_stored (w : World) : Prop :=
  forall id row, notifications w !! id = Some row ->
                 is_Some (_row_to_notification row).

Definition earlier (a b : Notification) : Prop := created_at a <= created_at b.

Definition later (a b : Notification) : Prop := created_at b <= created_at a.

(** A store with the four stages of the sample notification, created
    at different times. *)
Definition staged (id : string) (t : datetime) (n : Notification)
  : Notification :=
  {| notification_id := id; level := level n; subject := subject n;
     body := body n; recipients := recipients n; status := status n;
     created_at := t; sent_at := sent_at n; retry_count := retry_count n;
     max_retries := max_retries n; next_retry := next_retry n;
     error_message := error_message n; metadata := metadata n |}.

Definition staged_store : World :=
  snd (save_notification (staged "d" 40 failed_for_good)
    (snd (save_notification (staged "c" 10 retried_once)
      (snd (save_notification (staged "b" 30 sample_notification)
        (snd (save_notification (staged "a" 20 sent_after_retry)
                empty_world))))))).

(** The registry after the sample rules have been registered. *)
Definition sample_registry_world : World :=
  register_all sample_rules empty_world.

(** The entries of a dictionary under other keys than [k]. *)
Definition without_key {V} (k : string) (d : list (string * V))
  : list (string * V) :=
  filter (fun kv => fst kv <> k) d.

(** A template without placeholders. *)
Definition maintenance_notice : NotificationTemplate :=
  {| template_name := "maintenance";
     template_subject := "Maintenance tonight";
     template_body := "The backup runs at 10 pm; set} braces} stay.";
     template_type := "html";
     variables := [] |}.

(** What processing never touches: the queue, the rules and the
    identifiers handed out. *)
Definition same_frame (w w' : World) : Prop :=
  queue w' = queue w /\ rules w' = rules w
  /\ ids_generated w' = ids_generated w.

(** A store that holds one notification waiting for its retry. *)
Definition waiting_store : World :=
  snd (save_notification retried_once empty_world).

(* ================================================================== *)
(** * The delivery worker *)
(* ================================================================== *)

Lemma send_cases env n w :
  exists b e k,
    _send_notification env n w = ((b, with_error e n), set_send_calls k w)
    /\ (b = true -> e = None).
Proof.
  unfold _send_notification.
  destruct (email_sender env) as [sender|].
  - unfold bind, get_world, modify, ret. simpl.
    destruct (send_email sender (send_calls w) (recipients n) (subject n)
                (body n) true) as [[|] err|msg].
    + exists true, None, (S (send_calls w)). auto.
    + exists false, (Some err), (S (send_calls w)).
      split; [reflexivity|discriminate].
    + exists false, (Some (Some msg)), (S (send_calls w)).
      split; [reflexivity|discriminate].
  - exists false, None, (send_calls w). unfold ret.
    destruct w; simpl. split; [reflexivity|discriminate].
Qed.

Ltac run_monad :=
  unfold bind, ret, modify, get_world, utcnow, incr_sent, incr_failed,
    incr_retried, incr_processed, log_audit_event, save_notification;
  cbn.

Lemma process_sent env n w :
  status n = SENT -> _process_notification env n w = (n, w).
Proof.
  intros Hs. unfold _process_notification.
  destruct (decide (status n = SENT)); [reflexivity|contradiction].
Qed.

Lemma process_fst env n w :
  status n <> SENT ->
  fst (_process_notification env n w) =
  after_attempt (clock env (utcnow_calls w)) (attempt_succeeds env n w)
    (snd (fst (_send_notification env n w))).
Proof.
  intros Hs. unfold _process_notification, attempt_succeeds.
  destruct (decide (status n = SENT)); [contradiction|].
  unfold bind at 1.
  destruct (send_cases env n w) as (b & e & k & Hsend & _).
  rewrite Hsend. cbn [fst snd]. unfold after_attempt, retry_time.
  destruct b.
  - run_monad. destruct (notification_to_row _); reflexivity.
  - destruct (retry_count (with_error e n) <? max_retries (with_error e n)).
    + run_monad.
      destruct (backoff_minutes (retry_count (with_error e n) + 1)) as [m|];
        cbn; [|reflexivity].
      destruct (datetime_add (clock env (utcnow_calls w))
                  (timedelta_of_minutes m)); cbn; [|reflexivity].
      destruct (notification_to_row _); reflexivity.
    + run_monad. destruct (notification_to_row _); reflexivity.
Qed.

Lemma with_error_fields e n :
  status (with_error e n) = status n
  /\ retry_count (with_error e n) = retry_count n
  /\ max_retries (with_error e n) = max_retries n
  /\ next_retry (with_error e n) = next_retry n
  /\ notification_id (with_error e n) = notification_id n.
Proof. destruct e; cbn; auto 10. Qed.

(** The fields that drive the state machine, after one processing step. *)
Lemma process_step env n w :
  status n <> SENT ->
  let n' := fst (_process_notification env n w) in
  let now := clock env (utcnow_calls w) in
  max_retries n' = max_retries n /\
  notification_id n' = notification_id n /\
  if attempt_succeeds env n w then
    status n' = SENT /\ retry_count n' = retry_count n
    /\ next_retry n' = next_retry n /\ sent_at n' = Some now
  else if retry_count n <? max_retries n then
    status n' = RETRYING /\ retry_count n' = retry_count n + 1
    /\ next_retry n' =
       match retry_time now (retry_count n + 1) with
       | Some t => Some t
       | None => next_retry n
       end
  else
    status n' = FAILED /\ retry_count n' = retry_count n
    /\ next_retry n' = next_retry n.
Proof.
  intros Hs. cbv zeta. rewrite process_fst by assumption.
  unfold attempt_succeeds.
  destruct (send_cases env n w) as (b & e & k & Hsend & _).
  rewrite Hsend. cbn [fst snd].
  destruct (with_error_fields e n) as (Hst & Hrc & Hmr & Hnr & Hid).
  unfold after_attempt. rewrite Hrc, Hmr.
  destruct b; [|destruct (retry_count n <? max_retries n)];
    [| destruct (retry_time _ _) |]; cbn;
    rewrite ?Hrc, ?Hmr, ?Hnr, ?Hid; auto 10.
Qed.

(** The retry time when the counter is not negative: the clock reading
    plus [min (2 ^ retry_count) 60] minutes, if that is a date. *)
Lemma retry_time_value now rc :
  0 <= rc ->
  retry_time now rc =
  if (0 <=? now + Z.min (2 ^ rc) 60 * 60000000)
     && (now + Z.min (2 ^ rc) 60 * 60000000 <=? 315537897599999999)
  then Some (now + Z.min (2 ^ rc) 60 * 60000000) else None.
Proof.
  intros Hrc. unfold retry_time, backoff_minutes.
  apply Z.leb_le in Hrc. rewrite Hrc. reflexivity.
Qed.

Lemma retry_time_in_range now rc :
  0 <= rc ->
  0 <= now + Z.min (2 ^ rc) 60 * 60000000 <= 315537897599999999 ->
  retry_time now rc = Some (now + Z.min (2 ^ rc) 60 * 60000000).
Proof.
  intros Hrc [H0 H1]. rewrite retry_time_value by exact Hrc.
  apply Z.leb_le in H0, H1. rewrite H0, H1. reflexivity.
Qed.


(** The delay is at most 60 minutes. *)
Lemma backoff_at_most_an_hour rc :
  0 <= rc -> 2 <= Z.min (2 ^ (rc + 1)) 60 <= 60.
Proof.
  intros Hrc. split; [|apply Z.le_min_r].
  apply Z.min_glb; [|lia].
  replace 2 with (2 ^ 1) at 1 by reflexivity.
  apply Z.pow_le_mono_r; lia.
Qed.






Lemma offline_env_always_fails : always_fails offline_env.
Proof. intros sender Hs. discriminate Hs. Qed.



(* ================================================================== *)
(** * Serialization *)
(* ================================================================== *)

Lemma to_json_list l : to_json (PyList l) = JArr <$> to_json_items l.
Proof. reflexivity. Qed.

Lemma to_json_tuple l : to_json (PyTuple l) = JArr <$> to_json_items l.
Proof. reflexivity. Qed.

Lemma to_json_dict d : to_json (PyDict d) = JObj <$> to_json_members d.
Proof. reflexivity. Qed.

(** A JSON-native value is serializable and loads back as itself. *)
Lemma json_native_round_trip v :
  json_native v = true ->
  exists j, to_json v = Some j /\ of_json j = v.
Proof.
  induction v as [ |b|z|s|l IH|l IH|d IH|c] using pyval_ind; intros Hn;
    try discriminate Hn; try (eexists; split; reflexivity).
  - rewrite to_json_list.
    assert (H : exists js, to_json_items l = Some js /\ map of_json js = l).
    { simpl in Hn. induction IH as [|x l Hx _ IHl]; simpl.
      - exists []. auto.
      - simpl in Hn. apply andb_prop in Hn as [Hnx Hnl].
        destruct (Hx Hnx) as (j & -> & Hj).
        destruct (IHl Hnl) as (js & -> & Hjs).
        exists (j :: js). simpl. rewrite Hj, Hjs. auto. }
    destruct H as (js & -> & Hjs). exists (JArr js). simpl.
    rewrite Hjs. auto.
  - rewrite to_json_dict.
    assert (H : exists js, to_json_members d = Some js
              /\ map (fun kv => (fst kv, of_json (snd kv))) js = d).
    { simpl in Hn. induction IH as [|[k x] d Hx _ IHd]; simpl.
      - exists []. auto.
      - simpl in Hn, Hx. apply andb_prop in Hn as [Hnx Hnd].
        destruct (Hx Hnx) as (j & -> & Hj).
        destruct (IHd Hnd) as (js & -> & Hjs).
        exists ((k, j) :: js). simpl. rewrite Hj, Hjs. auto. }
    destruct H as (js & -> & Hjs). exists (JObj js). simpl.
    rewrite Hjs. auto.
Qed.

Lemma metadata_round_trip_native d :
  forallb (fun kv => json_native (snd kv)) d = true ->
  metadata_round_trip d = Some d.
Proof.
  intros Hn. unfold metadata_round_trip.
  destruct (json_native_round_trip (PyDict d) Hn) as (j & -> & Hj).
  simpl. rewrite Hj. reflexivity.
Qed.

Lemma level_round_trip l : level_of_value (level_value l) = Some l.
Proof. destruct l; reflexivity. Qed.

Lemma status_round_trip s : status_of_value (status_value s) = Some s.
Proof. destruct s; reflexivity. Qed.

Lemma recipients_round_trip l :
  exists j, to_json (PyList (map PyStr l)) = Some j
            /\ as_str_list (of_json j) = Some l.
Proof.
  assert (H : to_json_items (map PyStr l) = Some (map JStr l)).
  { induction l as [|s l IH]; simpl; [reflexivity|]. rewrite IH. reflexivity. }
  exists (JArr (map JStr l)). split.
  - rewrite to_json_list, H. reflexivity.
  - simpl. clear H. induction l as [|s l IH]; simpl; [reflexivity|].
    rewrite IH. reflexivity.
Qed.

Lemma sqlite_integer_Some z z' : sqlite_integer z = Some z' -> z' = z.
Proof.
  unfold sqlite_integer. destruct (_ && _); congruence.
Qed.

(** Writing a notification and reading the row back changes nothing but,
    possibly, the metadata. *)
Lemma row_round_trip n row :
  notification_to_row n = Some row ->
  _row_to_notification row =
  (fun meta => set_metadata meta n) <$> metadata_round_trip (metadata n).
Proof.
  unfold notification_to_row, metadata_round_trip.
  destruct (recipients_round_trip (recipients n)) as (jr & Hjr & Hr).
  rewrite Hjr.
  destruct (sqlite_integer (retry_count n)) as [rc|] eqn:Hrc; [|discriminate].
  destruct (sqlite_integer (max_retries n)) as [mr|] eqn:Hmr; [|discriminate].
  destruct (to_json (PyDict (metadata n))) as [jm|] eqn:Hjm; [|discriminate].
  intros [= <-]. apply sqlite_integer_Some in Hrc, Hmr. subst rc mr.
  unfold _row_to_notification. cbn [col_level col_recipients col_status
    col_metadata col_id col_subject col_body col_created_at col_sent_at
    col_retry_count col_max_retries col_next_retry col_error_message].
  rewrite level_round_trip, Hr, status_round_trip. cbn [mbind option_bind].
  destruct (as_dict (of_json jm)) as [meta|]; [|reflexivity].
  destruct n; reflexivity.
Qed.

Lemma row_round_trip_fields n row n' :
  notification_to_row n = Some row ->
  _row_to_notification row = Some n' ->
  exists meta, n' = set_metadata meta n.
Proof.
  intros Hrow Hn'. rewrite (row_round_trip n row Hrow) in Hn'.
  destruct (metadata_round_trip (metadata n)) as [meta|]; [|discriminate].
  injection Hn' as <-. exists meta. reflexivity.
Qed.

(* ================================================================== *)
(** * Processing a notification that is already SENT *)
(* ================================================================== *)

(** C9.  Processing a notification whose status is SENT returns the
    notification and the whole state unchanged: the transport is not
    called ([send_calls]), no field of the notification changes, nothing
    is written to the store or to the audit log, and the statistics stay
    as they are. *)
Theorem sent_notification_is_not_processed_again
    (env : Env) (n : Notification) (w : World) :
  status n = SENT ->
  let (n', w') := _process_notification env n w in
  n' = n /\ w' = w
  /\ send_calls w' = send_calls w
  /\ notifications w' = notifications w
  /\ notification_audit w' = notification_audit w.
Proof.
  intros Hs. unfold _process_notification.
  destruct (decide (status n = SENT)); [|contradiction].
  unfold ret. auto.
Qed.

Lemma sent_notification_is_not_processed_again_witness :
  status (set_status SENT sample_notification) = SENT /\
  _process_notification accepting_env (set_status SENT sample_notification)
    empty_world
  = (set_status SENT sample_notification, empty_world).
Proof.
  split; [reflexivity|].
  pose proof (sent_notification_is_not_processed_again accepting_env
                (set_status SENT sample_notification) empty_world eq_refl)
    as H.
  destruct (_process_notification accepting_env
              (set_status SENT sample_notification) empty_world) as [n' w'].
  destruct H as (-> & -> & _). reflexivity.
Defined.

(** A second queue entry for the same object: once a step has delivered
    the notification, processing what it returned does nothing more. *)
Lemma duplicate_entry_not_redelivered env n w w2 :
  status n <> SENT -> attempt_succeeds env n w = true ->
  _process_notification env (fst (_process_notification env n w)) w2
  = (fst (_process_notification env n w), w2).
Proof.
  intros Hs Hok. apply process_sent.
  pose proof (process_step env n w Hs) as H. cbv zeta in H.
  rewrite Hok in H. tauto.
Qed.

(* ================================================================== *)
(** * Invariants of reachable notifications *)
(* ================================================================== *)

Lemma reachable_invariant env n last :
  reachable env n last ->
  0 <= retry_count n <= max_retries n
  /\ (status n = FAILED ->
      retry_count n = max_retries n /\ last = Some false)
  /\ (status n = RETRYING -> 0 < retry_count n)
  /\ (is_Some (next_retry n) -> 0 < retry_count n).
Proof.
  induction 1 as [id lvl subj bdy rcpts meta now
                 | n last w Hreach IH
                 | n last row n' Hreach IH Hrow Hback].
  - cbn. split; [lia|]. split; [discriminate|]. split; [discriminate|].
    intros [x Hx]; discriminate Hx.
  - destruct IH as (Hrc & Hfailed & Hretry & Hnext).
    destruct (decide (status n = SENT)) as [Hs|Hs].
    + rewrite (process_sent env n w Hs). cbn. auto.
    + pose proof (process_step env n w Hs) as H. cbv zeta in H.
      destruct H as (Hmr & _ & H).
      destruct (attempt_succeeds env n w).
      * destruct H as (Hst & Hrc' & Hnr & _). rewrite Hst, Hrc', Hmr, Hnr.
        repeat split; try tauto; try lia; discriminate.
      * destruct (retry_count n <? max_retries n) eqn:Hlt.
        -- apply Z.ltb_lt in Hlt.
           destruct H as (Hst & Hrc' & Hnr). rewrite Hst, Hrc', Hmr.
           repeat split; try lia; try discriminate.
        -- apply Z.ltb_ge in Hlt.
           destruct H as (Hst & Hrc' & Hnr). rewrite Hst, Hrc', Hmr, Hnr.
           repeat split; try tauto; try lia; discriminate.
  - destruct (row_round_trip_fields n row n' Hrow Hback) as (meta & ->).
    exact IH.
Qed.

(** A step made in time on a counter that is not negative can always
    schedule its retry. *)
Lemma retry_time_in_time env w rc :
  in_time env w -> 0 <= rc ->
  is_Some (retry_time (clock env (utcnow_calls w)) (rc + 1)).
Proof.
  intros [H0 H1] Hrc.
  pose proof (backoff_at_most_an_hour rc Hrc) as Hb.
  rewrite retry_time_in_range; [eauto|lia|lia].
Qed.

Lemma in_time_reachable env n last :
  reachable_in_time env n last -> reachable env n last.
Proof.
  induction 1 as [id lvl subj bdy rcpts meta now
                 | n last w Hreach IH Hw
                 | n last row n' Hreach IH Hrow Hback].
  - apply reach_new.
  - apply reach_process. exact IH.
  - exact (reach_reload env n last row n' IH Hrow Hback).
Qed.

Lemma in_time_invariant env n last :
  reachable_in_time env n last ->
  (status n = RETRYING -> is_Some (next_retry n))
  /\ (is_Some (next_retry n) <-> 0 < retry_count n).
Proof.
  induction 1 as [id lvl subj bdy rcpts meta now
                 | n last w Hreach IH Hw
                 | n last row n' Hreach IH Hrow Hback].
  - cbn. split; [discriminate|].
    split; [intros [x Hx]; discriminate Hx | lia].
  - destruct IH as (Hretry & Hnext).
    destruct (reachable_invariant env n last (in_time_reachable _ _ _ Hreach))
      as (Hrc & _).
    destruct (decide (status n = SENT)) as [Hs|Hs].
    + rewrite (process_sent env n w Hs). cbn. auto.
    + pose proof (process_step env n w Hs) as H. cbv zeta in H.
      destruct H as (Hmr & _ & H).
      destruct (attempt_succeeds env n w).
      * destruct H as (Hst & Hrc' & Hnr & _). rewrite Hst, Hrc', Hnr.
        split; [discriminate|exact Hnext].
      * destruct (retry_count n <? max_retries n) eqn:Hlt.
        -- destruct H as (Hst & Hrc' & Hnr).
           destruct (retry_time_in_time env w (retry_count n) Hw)
             as [t Ht]; [lia|].
           rewrite Ht in Hnr. rewrite Hnr, Hrc'.
           split; [eauto|]. split; [lia|eauto].
        -- destruct H as (Hst & Hrc' & Hnr). rewrite Hst, Hrc', Hnr.
           split; [discriminate|exact Hnext].
  - destruct (row_round_trip_fields n row n' Hrow Hback) as (meta & ->).
    exact IH.
Qed.

(** One more step, made in time, on a notification that is not SENT. *)
Lemma in_time_attempt env n last w b :
  reachable_in_time env n last -> in_time env w ->
  status n <> SENT -> attempt_succeeds env n w = b ->
  reachable_in_time env (fst (_process_notification env n w)) (Some b).
Proof.
  intros Hreach Hw Hs Hb.
  pose proof (in_time_process env n last w Hreach Hw) as H.
  destruct (decide (status n = SENT)); [contradiction|].
  rewrite Hb in H. exact H.
Qed.

(** One more step on a reachable notification that is not SENT. *)
Lemma reach_attempt env n last w b :
  reachable env n last ->
  status n <> SENT -> attempt_succeeds env n w = b ->
  reachable env (fst (_process_notification env n w)) (Some b).
Proof.
  intros Hreach Hs Hb. pose proof (reach_process env n last w Hreach) as H.
  destruct (decide (status n = SENT)); [contradiction|].
  rewrite Hb in H. exact H.
Qed.

Lemma sample_notification_reachable env :
  reachable env sample_notification None.
Proof. apply reach_new. Qed.

Lemma retried_once_reachable : reachable offline_env retried_once (Some false).
Proof.
  eapply reach_attempt with (w := empty_world);
    [apply sample_notification_reachable| |].
  - vm_compute. discriminate.
  - vm_compute. reflexivity.
Qed.

Lemma retried_twice_reachable :
  reachable offline_env retried_twice (Some false).
Proof.
  eapply reach_attempt with (w := empty_world);
    [exact retried_once_reachable| |].
  - vm_compute. discriminate.
  - vm_compute. reflexivity.
Qed.

Lemma retried_thrice_reachable :
  reachable offline_env retried_thrice (Some false).
Proof.
  eapply reach_attempt with (w := empty_world);
    [exact retried_twice_reachable| |].
  - vm_compute. discriminate.
  - vm_compute. reflexivity.
Qed.

Lemma failed_for_good_reachable :
  reachable offline_env failed_for_good (Some false).
Proof.
  eapply reach_attempt with (w := empty_world);
    [exact retried_thrice_reachable| |].
  - vm_compute. discriminate.
  - vm_compute. reflexivity.
Qed.

Lemma sent_after_retry_reachable :
  reachable flaky_env sent_after_retry (Some true).
Proof.
  assert (H : reachable flaky_env refused_once (Some false)).
  { eapply reach_attempt with (w := empty_world);
    [apply sample_notification_reachable| |].
    - vm_compute. discriminate.
    - vm_compute. reflexivity. }
  eapply reach_attempt with (w := one_call_made); [exact H| |].
  - vm_compute. discriminate.
  - vm_compute. reflexivity.
Qed.

(** C2, as stated, fails.  After its third failed attempt the sample
    notification has [retry_count = max_retries = 3] and its most recent
    delivery attempt failed, yet its status is RETRYING: FAILED is only
    set by a fourth failed attempt. *)
Lemma failed_iff_exhausted_counterexample :
  reachable offline_env retried_thrice (Some false)
  /\ retry_count retried_thrice = max_retries retried_thrice
  /\ status retried_thrice = RETRYING
  /\ ~ (status retried_thrice = FAILED <->
        retry_count retried_thrice = max_retries retried_thrice
        /\ Some false = Some false).
Proof.
  assert (Hrc : retry_count retried_thrice = max_retries retried_thrice)
    by (vm_compute; reflexivity).
  assert (Hst : status retried_thrice = RETRYING)
    by (vm_compute; reflexivity).
  split; [exact retried_thrice_reachable|].
  split; [exact Hrc|]. split; [exact Hst|].
  intros [_ H]. specialize (H (conj Hrc eq_refl)).
  rewrite Hst in H. discriminate H.
Qed.

(** C2, amended.  For every reachable notification [retry_count] is at
    most [max_retries], and the status is FAILED only if [retry_count]
    equals [max_retries] and the most recent delivery attempt failed. *)
Theorem retry_count_bounded_and_failed_only_if_exhausted
    (env : Env) (n : Notification) (last : option bool) :
  reachable env n last ->
  retry_count n <= max_retries n
  /\ (status n = FAILED ->
      retry_count n = max_retries n /\ last = Some false).
Proof.
  intros Hreach.
  destruct (reachable_invariant env n last Hreach) as (Hrc & Hfailed & _).
  split; [lia | exact Hfailed].
Qed.

Lemma retry_count_bounded_and_failed_only_if_exhausted_witness :
  reachable offline_env failed_for_good (Some false)
  /\ retry_count failed_for_good <= max_retries failed_for_good
  /\ (status failed_for_good = FAILED ->
      retry_count failed_for_good = max_retries failed_for_good
      /\ Some false = Some false).
Proof.
  split; [exact failed_for_good_reachable|].
  exact (retry_count_bounded_and_failed_only_if_exhausted offline_env
           failed_for_good (Some false) failed_for_good_reachable).
Defined.

(** The converse that does hold: a failed attempt made when the counter
    is no longer below the limit sets FAILED. *)
Lemma exhausted_attempt_fails env n w :
  status n <> SENT -> attempt_succeeds env n w = false ->
  ~ retry_count n < max_retries n ->
  status (fst (_process_notification env n w)) = FAILED.
Proof.
  intros Hs Hfail Hrc. pose proof (process_step env n w Hs) as H.
  cbv zeta in H. rewrite Hfail in H.
  destruct (retry_count n <? max_retries n) eqn:Hlt.
  - apply Z.ltb_lt in Hlt. contradiction.
  - tauto.
Qed.

(** C4, as stated, fails.  The worker never clears [next_retry]: the
    sample notification keeps the one of its last retry when its fourth
    attempt fails for good, and also when, after one retry, its second
    attempt succeeds. *)
Lemma next_retry_iff_retrying_counterexample :
  (reachable offline_env failed_for_good (Some false)
   /\ status failed_for_good = FAILED
   /\ next_retry failed_for_good
      = Some (63900748800000000 + timedelta_minutes 8))
  /\ (reachable flaky_env sent_after_retry (Some true)
      /\ status sent_after_retry = SENT
      /\ next_retry sent_after_retry
         = Some (63900748800000000 + timedelta_minutes 2)).
Proof.
  split; (split; [|split; vm_compute; reflexivity]).
  - exact failed_for_good_reachable.
  - exact sent_after_retry_reachable.
Qed.

Lemma empty_world_in_time : in_time offline_env empty_world.
Proof. vm_compute. split; discriminate. Qed.

Lemma retried_thrice_in_time :
  reachable_in_time offline_env retried_thrice (Some false).
Proof.
  assert (H1 : reachable_in_time offline_env retried_once (Some false)).
  { eapply in_time_attempt with (w := empty_world);
      [apply in_time_new|exact empty_world_in_time| |].
    - vm_compute. discriminate.
    - vm_compute. reflexivity. }
  assert (H2 : reachable_in_time offline_env retried_twice (Some false)).
  { eapply in_time_attempt with (w := empty_world);
      [exact H1|exact empty_world_in_time| |].
    - vm_compute. discriminate.
    - vm_compute. reflexivity. }
  eapply in_time_attempt with (w := empty_world);
    [exact H2|exact empty_world_in_time| |].
  - vm_compute. discriminate.
  - vm_compute. reflexivity.
Qed.

(** C4, amended.  For every notification reachable by creation and by
    processing steps made in time (the clock reading of the step lies at
    least an hour before [datetime.max]), [next_retry] is set whenever
    the status is RETRYING; more precisely it is set exactly when at
    least one retry has been scheduled ([retry_count > 0]), whatever the
    status has become since: it is never cleared.  A step made later
    than that can leave a RETRYING notification without [next_retry],
    because the retry time is no date any more. *)
Theorem next_retry_set_while_retrying
    (env : Env) (n : Notification) (last : option bool) :
  reachable_in_time env n last ->
  (status n = RETRYING -> is_Some (next_retry n))
  /\ (is_Some (next_retry n) <-> 0 < retry_count n).
Proof.
  intros Hreach.
  destruct (in_time_invariant env n last Hreach) as (Hretry & Hnext).
  split; assumption.
Qed.

Lemma next_retry_set_while_retrying_witness :
  reachable_in_time offline_env retried_thrice (Some false)
  /\ (status retried_thrice = RETRYING -> is_Some (next_retry retried_thrice))
  /\ (is_Some (next_retry retried_thrice) <-> 0 < retry_count retried_thrice).
Proof.
  split; [exact retried_thrice_in_time|].
  exact (next_retry_set_while_retrying offline_env retried_thrice
           (Some false) retried_thrice_in_time).
Defined.

(* ================================================================== *)
(** * The end of the retries and the audit log *)
(* ================================================================== *)

(** C3, as stated, fails.  The fourth failed attempt on the sample
    notification exhausts its retries and sets FAILED, and the audit log
    is still empty afterwards: no entry "FAILED_PERMANENT" is written. *)
Lemma permanent_failure_audit_counterexample :
  status retried_thrice <> SENT
  /\ attempt_succeeds offline_env retried_thrice empty_world = false
  /\ ~ retry_count retried_thrice < max_retries retried_thrice
  /\ status (fst (_process_notification offline_env retried_thrice
                    empty_world)) = FAILED
  /\ notification_audit (snd (_process_notification offline_env
                                retried_thrice empty_world)) = []
  /\ ~ (exists entry,
          In entry (notification_audit
                      (snd (_process_notification offline_env retried_thrice
                              empty_world)))
          /\ audit_notification_id entry = notification_id retried_thrice
          /\ audit_event entry = "FAILED_PERMANENT").
Proof.
  split; [vm_compute; discriminate|]. split; [vm_compute; reflexivity|].
  split; [vm_compute; discriminate|].
  split; [vm_compute; reflexivity|].
  assert (H : notification_audit
                (snd (_process_notification offline_env retried_thrice
                        empty_world)) = []) by (vm_compute; reflexivity).
  split; [exact H|].
  intros (entry & Hin & _). rewrite H in Hin. exact Hin.
Qed.

(** C3, amended.  Whenever a delivery attempt fails with [retry_count]
    not below [max_retries], the worker sets status FAILED, counts the
    failure, saves the notification and leaves the audit log as it was:
    the only audit entries the worker writes are those for SENT. *)
Theorem exhausted_retries_set_failed_without_audit
    (env : Env) (n : Notification) (w : World) :
  status n <> SENT ->
  attempt_succeeds env n w = false ->
  ~ retry_count n < max_retries n ->
  let (n', w') := _process_notification env n w in
  status n' = FAILED
  /\ notification_audit w' = notification_audit w
  /\ failed (stats w') = failed (stats w) + 1
  /\ (forall row, notification_to_row n' = Some row ->
        notifications w' !! notification_id n = Some row).
Proof.
  intros Hs Hfail Hrc. unfold _process_notification, attempt_succeeds in *.
  destruct (decide (status n = SENT)); [contradiction|].
  unfold bind at 1.
  destruct (send_cases env n w) as (b & e & k & Hsend & _).
  rewrite Hsend in *. cbn [fst snd] in Hfail. subst b.
  destruct (with_error_fields e n) as (Hst & Hrc' & Hmr & Hnr & Hid).
  rewrite Hrc', Hmr.
  destruct (retry_count n <? max_retries n) eqn:Hlt;
    [apply Z.ltb_lt in Hlt; contradiction|].
  run_monad.
  destruct (notification_to_row (set_status FAILED (with_error e n)))
    as [row|] eqn:Hrow; cbn.
  - repeat split. intros row' Hrow'. rewrite Hrow in Hrow'.
    injection Hrow' as <-. rewrite <- Hid. apply lookup_insert_eq.
  - repeat split. intros row' Hrow'. rewrite Hrow in Hrow'.
    discriminate Hrow'.
Qed.

Lemma exhausted_retries_set_failed_without_audit_witness :
  status retried_thrice <> SENT
  /\ attempt_succeeds offline_env retried_thrice empty_world = false
  /\ ~ retry_count retried_thrice < max_retries retried_thrice
  /\ status (fst (_process_notification offline_env retried_thrice
                    empty_world)) = FAILED.
Proof.
  assert (H1 : status retried_thrice <> SENT)
    by (vm_compute; discriminate).
  assert (H2 : attempt_succeeds offline_env retried_thrice empty_world
               = false) by (vm_compute; reflexivity).
  assert (H3 : ~ retry_count retried_thrice < max_retries retried_thrice)
    by (vm_compute; discriminate).
  pose proof (exhausted_retries_set_failed_without_audit offline_env
                retried_thrice empty_world H1 H2 H3) as H.
  destruct (_process_notification offline_env retried_thrice empty_world)
    as [n' w'].
  destruct H as (H & _).
  split; [exact H1|]. split; [exact H2|]. split; [exact H3|]. exact H.
Defined.

(* ================================================================== *)
(** * The store *)
(* ================================================================== *)

(** What [get_notification] returns after [save_notification] succeeded:
    the notification saved, with the metadata as JSON gives it back. *)
Lemma get_after_save n w w' :
  save_notification n w = (true, w') ->
  get_notification (notification_id n) w'
  = ((fun meta => set_metadata meta n) <$> metadata_round_trip (metadata n), w').
Proof.
  unfold save_notification.
  destruct (notification_to_row n) as [row|] eqn:Hrow;
    [|intros H; discriminate H].
  unfold bind, modify, ret. intros [= <-].
  unfold get_notification, bind, get_world, ret. cbn.
  rewrite lookup_insert_eq. rewrite (row_round_trip n row Hrow). reflexivity.
Qed.

(** C10, as stated, fails.  The save of a notification whose metadata
    holds a tuple succeeds, and the notification read back holds a list
    in its place, which Python does not consider equal to the tuple. *)
Lemma save_get_round_trip_counterexample :
  fst (save_notification tuple_notification empty_world) = true
  /\ fst (get_notification (notification_id tuple_notification)
            (snd (save_notification tuple_notification empty_world)))
     = Some (set_metadata
               [("files", PyList [PyStr "a.txt"; PyStr "b.txt"])]
               tuple_notification)
  /\ fst (get_notification (notification_id tuple_notification)
            (snd (save_notification tuple_notification empty_world)))
     <> Some tuple_notification.
Proof.
  split; [vm_compute; reflexivity|].
  assert (H : fst (get_notification (notification_id tuple_notification)
                     (snd (save_notification tuple_notification empty_world)))
              = Some (set_metadata
                        [("files", PyList [PyStr "a.txt"; PyStr "b.txt"])]
                        tuple_notification)) by (vm_compute; reflexivity).
  split; [exact H|]. rewrite H. intros E. discriminate E.
Qed.

(** C10, amended.  For every notification whose metadata is made of
    JSON-native values (None, booleans, integers, strings, lists and
    dictionaries of such, at any depth), after a successful
    [save_notification] the call of [get_notification] with its id
    returns that very notification, field for field, and leaves the
    store as it is. *)
Theorem save_then_get_returns_notification
    (n : Notification) (w w' : World) :
  forallb (fun kv => json_native (snd kv)) (metadata n) = true ->
  save_notification n w = (true, w') ->
  get_notification (notification_id n) w' = (Some n, w').
Proof.
  intros Hnative Hsave. rewrite (get_after_save n w w' Hsave).
  rewrite (metadata_round_trip_native _ Hnative). cbn.
  destruct n; reflexivity.
Qed.

Lemma save_then_get_returns_notification_witness :
  forallb (fun kv => json_native (snd kv))
    (metadata (set_metadata [("rule_name", PyStr "high_memory_usage");
                             ("attempts", PyList [PyInt 1; PyNone])]
                 sample_notification)) = true
  /\ exists w',
       save_notification
         (set_metadata [("rule_name", PyStr "high_memory_usage");
                        ("attempts", PyList [PyInt 1; PyNone])]
            sample_notification) empty_world = (true, w')
       /\ get_notification "notif_0" w'
          = (Some (set_metadata [("rule_name", PyStr "high_memory_usage");
                                 ("attempts", PyList [PyInt 1; PyNone])]
                     sample_notification), w').
Proof.
  split; [vm_compute; reflexivity|].
  destruct (save_notification
              (set_metadata [("rule_name", PyStr "high_memory_usage");
                             ("attempts", PyList [PyInt 1; PyNone])]
                 sample_notification) empty_world) as [ok w'] eqn:Hsave.
  assert (Hok : ok = true).
  { change ok with (fst (ok, w')). rewrite <- Hsave. vm_compute. reflexivity. }
  subst ok. exists w'. split; [reflexivity|].
  apply (save_then_get_returns_notification
           (set_metadata [("rule_name", PyStr "high_memory_usage");
                          ("attempts", PyList [PyInt 1; PyNone])]
              sample_notification) empty_world w');
    [vm_compute; reflexivity | exact Hsave].
Defined.

(* ================================================================== *)
(** * The cleanup sweep *)
(* ================================================================== *)

Lemma status_of_value_inv s st :
  status_of_value s = Some st -> s = status_value st.
Proof.
  unfold status_of_value.
  destruct (String.eqb s "PENDING") eqn:E1;
    [apply String.eqb_eq in E1; intros [= <-]; exact E1|].
  destruct (String.eqb s "SENT") eqn:E2;
    [apply String.eqb_eq in E2; intros [= <-]; exact E2|].
  destruct (String.eqb s "FAILED") eqn:E3;
    [apply String.eqb_eq in E3; intros [= <-]; exact E3|].
  destruct (String.eqb s "RETRYING") eqn:E4;
    [apply String.eqb_eq in E4; intros [= <-]; exact E4|].
  destruct (String.eqb s "ARCHIVED") eqn:E5;
    [apply String.eqb_eq in E5; intros [= <-]; exact E5|].
  discriminate.
Qed.

(** The WHERE clause of the sweep, for the cutoff [c]. *)
Lemma swept_row c r :
  _row_to_notification
    (if (col_created_at r <? c) && String.eqb (col_status r) (status_value SENT)
     then set_col_status (status_value ARCHIVED) r else r)
  = archive_if_old_sent (Some c) <$> _row_to_notification r.
Proof.
  unfold archive_if_old_sent, older_than.
  destruct (String.eqb (col_status r) (status_value SENT)) eqn:Hsent.
  - apply String.eqb_eq in Hsent.
    destruct (col_created_at r <? c) eqn:Hold; cbn [andb].
    + unfold _row_to_notification. cbn [col_level col_recipients col_status
        col_metadata col_id col_subject col_body col_created_at col_sent_at
        col_retry_count col_max_retries col_next_retry col_error_message
        set_col_status].
      rewrite Hsent.
      destruct (level_of_value (col_level r)); [|reflexivity].
      destruct (as_str_list (of_json (col_recipients r))); [|reflexivity].
      destruct (match col_metadata r with
                | Some j => as_dict (of_json j)
                | None => Some []
                end); [|reflexivity].
      cbn. rewrite Hold. reflexivity.
    + destruct (_row_to_notification r) as [n|] eqn:Hn; [|reflexivity].
      cbn. assert (Hc : created_at n = col_created_at r).
      { unfold _row_to_notification in Hn.
        repeat match type of Hn with
               | match ?x with _ => _ end = _ => destruct x; try discriminate
               end.
        injection Hn as <-. reflexivity. }
      rewrite Hc, Hold. destruct (decide (status n = SENT)); reflexivity.
  - rewrite andb_false_r.
    destruct (_row_to_notification r) as [n|] eqn:Hn; [|reflexivity].
    cbn. destruct (decide (status n = SENT)) as [Hs|]; [|reflexivity].
    exfalso. unfold _row_to_notification in Hn.
    destruct (level_of_value (col_level r)); [|discriminate].
    destruct (as_str_list (of_json (col_recipients r))); [|discriminate].
    destruct (status_of_value (col_status r)) as [st|] eqn:Hst; [|discriminate].
    destruct (match col_metadata r with
              | Some j => as_dict (of_json j)
              | None => Some []
              end); [|discriminate].
    injection Hn as <-. cbn in Hs. subst st.
    apply status_of_value_inv in Hst. rewrite Hst in Hsent.
    discriminate Hsent.
Qed.

Lemma archive_without_cutoff n : archive_if_old_sent None n = n.
Proof.
  unfold archive_if_old_sent, older_than.
  destruct (decide (status n = SENT)); reflexivity.
Qed.

Lemma get_notification_lookup id w :
  fst (get_notification id w) = notifications w !! id ≫= _row_to_notification.
Proof.
  unfold get_notification, bind, get_world, ret.
  destruct (notifications w !! id); reflexivity.
Qed.

Lemma cleanup_result env days w :
  cleanup_old_notifications env days w =
  match cutoff_date env w days with
  | Some c =>
      (snd (sql_update
              (fun r => (col_created_at r <? c)
                        && String.eqb (col_status r) (status_value SENT))
              (set_col_status (status_value ARCHIVED)) (notifications w)),
       set_notifications
         (fst (sql_update
                 (fun r => (col_created_at r <? c)
                           && String.eqb (col_status r) (status_value SENT))
                 (set_col_status (status_value ARCHIVED)) (notifications w)))
         (set_utcnow_calls (S (utcnow_calls w)) w))
  | None => (0, set_utcnow_calls (S (utcnow_calls w)) w)
  end.
Proof.
  unfold cleanup_old_notifications, bind, utcnow.
  change (td ← timedelta_days days;
          datetime_sub (clock env (utcnow_calls w)) td)
    with (cutoff_date env w days).
  destruct (cutoff_date env w days); reflexivity.
Qed.

(** The cutoff in plain arithmetic: [days] days of 86400000000
    microseconds before the clock reading, when [days] is a number of
    days that [timedelta] takes and the result is a date. *)
Lemma cutoff_date_value env w days :
  cutoff_date env w days
  = if decide (Z.abs days <= 999999999
               /\ 0 <= clock env (utcnow_calls w) - days * 86400000000
                  <= 315537897599999999)
    then Some (clock env (utcnow_calls w) - days * 86400000000)
    else None.
Proof.
  unfold cutoff_date, timedelta_days, datetime_sub.
  change US_PER_DAY with 86400000000.
  change DATETIME_MAX with 315537897599999999.
  destruct (Z.abs days <=? 999999999) eqn:Hd; cbn [mbind option_bind].
  - apply Z.leb_le in Hd.
    destruct (0 <=? clock env (utcnow_calls w) - days * 86400000000) eqn:H0;
      destruct (clock env (utcnow_calls w) - days * 86400000000
                <=? 315537897599999999) eqn:H1; cbn [andb];
      rewrite ?Z.leb_le, ?Z.leb_gt in *;
      destruct (decide _) as [Hok|Hno]; try reflexivity; try lia;
      exfalso; apply Hno; lia.
  - apply Z.leb_gt in Hd.
    destruct (decide _) as [Hok|Hno]; [lia|reflexivity].
Qed.

Lemma archive_if_old_sent_before c n :
  archive_if_old_sent (Some c) n = archived_before c n.
Proof.
  unfold archive_if_old_sent, archived_before, older_than.
  destruct (decide (status n = SENT)) as [Hs|Hs].
  - destruct (created_at n <? c) eqn:Hc.
    + apply Z.ltb_lt in Hc.
      destruct (decide _) as [_|Hno]; [reflexivity|].
      exfalso. apply Hno. split; assumption.
    + apply Z.ltb_ge in Hc.
      destruct (decide _) as [[_ Hlt]|_]; [lia|reflexivity].
  - destruct (decide _) as [[Hs' _]|_]; [contradiction|reflexivity].
Qed.

(** C6, as stated, fails.  With [days = -3000000] the cutoff lies some
    8200 years after the clock reading of 2025-12-08, beyond
    [datetime.max]: the subtraction raises, the sweep returns 0 and
    archives nothing, although the SENT notification of 2025-10-01 is
    older than that cutoff. *)
Lemma cleanup_far_cutoff_counterexample :
  fst (get_notification "old_sent" sample_store) = Some old_sent
  /\ status old_sent = SENT
  /\ created_at old_sent
     < clock offline_env (utcnow_calls sample_store)
       - (-3000000) * 86400000000
  /\ fst (cleanup_old_notifications offline_env (-3000000) sample_store) = 0
  /\ fst (get_notification "old_sent"
            (snd (cleanup_old_notifications offline_env (-3000000)
                    sample_store)))
     = Some old_sent.
Proof.
  split; [vm_compute; reflexivity|]. split; [reflexivity|].
  split; [vm_compute; reflexivity|].
  split; vm_compute; reflexivity.
Qed.

(** C6, amended.  The cutoff is the clock reading minus [days] days.
    When [days] is at most 999999999 in magnitude and the cutoff is a
    date (between 0001-01-01 and [datetime.max]), the sweep turns each
    stored notification that is SENT and was created before the cutoff
    into the same notification with status ARCHIVED, leaves every other
    stored notification as it is, creates and deletes none, and returns
    the number of rows it changed.  For any other [days] it changes
    nothing and returns 0.  In all cases a notification that is not SENT
    (a FAILED one in particular, whatever its age) is left as it is, and
    so are the audit log and the queue. *)
Theorem cleanup_archives_old_sent_only (env : Env) (days : Z) (w : World) :
  let cutoff := clock env (utcnow_calls w) - days * 86400000000 in
  let (count, w') := cleanup_old_notifications env days w in
  notification_audit w' = notification_audit w
  /\ queue w' = queue w
  /\ (forall id n,
        fst (get_notification id w) = Some n -> status n <> SENT ->
        fst (get_notification id w') = Some n)
  /\ if decide (Z.abs days <= 999999999
                /\ 0 <= cutoff <= 315537897599999999)
     then
       (forall id,
          fst (get_notification id w')
          = archived_before cutoff <$> fst (get_notification id w))
       /\ count
          = Z.of_nat
              (size (filter
                       (fun kr => col_status (snd kr) = "SENT"
                                  /\ col_created_at (snd kr) < cutoff)
                       (notifications w)))
     else count = 0 /\ notifications w' = notifications w.
Proof.
  cbv zeta. rewrite cleanup_result, cutoff_date_value.
  destruct (decide (Z.abs days <= 999999999
                    /\ 0 <= clock env (utcnow_calls w) - days * 86400000000
                       <= 315537897599999999)) as [Hok|Hno].
  - set (c := clock env (utcnow_calls w) - days * 86400000000).
    assert (Hget : forall id,
      fst (get_notification id
             (set_notifications
                (fst (sql_update
                        (fun r => (col_created_at r <? c)
                                  && String.eqb (col_status r)
                                       (status_value SENT))
                        (set_col_status (status_value ARCHIVED))
                        (notifications w)))
                (set_utcnow_calls (S (utcnow_calls w)) w)))
      = archived_before c <$> fst (get_notification id w)).
    { intros id. rewrite !get_notification_lookup.
      unfold sql_update. cbn [fst notifications set_notifications].
      rewrite lookup_fmap.
      destruct (notifications w !! id) as [r|];
        cbn [fmap option_fmap option_map mbind option_bind]; [|reflexivity].
      etransitivity; [apply (swept_row c r)|].
      destruct (_row_to_notification r) as [n|];
        cbn [fmap option_fmap option_map]; [|reflexivity].
      rewrite archive_if_old_sent_before. reflexivity. }
    split; [reflexivity|]. split; [reflexivity|]. split.
    + intros id n Hn Hs. rewrite Hget, Hn. cbn.
      unfold archived_before.
      destruct (decide _) as [[Hs' _]|_]; [contradiction|reflexivity].
    + split; [exact Hget|]. unfold sql_update. cbn [snd].
      f_equal. f_equal.
      apply map_filter_ext. intros id r _. cbn.
      rewrite andb_true_iff, String.eqb_eq, Z.ltb_lt, (comm and).
      reflexivity.
  - split; [reflexivity|]. split; [reflexivity|]. split.
    + intros id n Hn _. rewrite <- Hn. rewrite !get_notification_lookup.
      reflexivity.
    + split; reflexivity.
Qed.

(** The sweep with [days = 30] on 2025-12-08: of the three stored
    notifications only the SENT one of 2025-10-01 is archived. *)
Example cleanup_thirty_days :
  let (count, w') := cleanup_old_notifications offline_env 30 sample_store in
  count = 1
  /\ fst (get_notification "old_sent" w') = Some (set_status ARCHIVED old_sent)
  /\ fst (get_notification "old_failed" w') = Some old_failed
  /\ fst (get_notification "recent_sent" w') = Some recent_sent.
Proof. vm_compute. repeat split; reflexivity. Qed.

(* ================================================================== *)
(** * The rule engine *)
(* ================================================================== *)

Lemma matches_selects event_data rule :
  enabled rule = true ->
  (matches rule event_data = true <-> selects event_data rule).
Proof.
  intros He. unfold matches, selects.
  destruct (condition rule event_data) as [[|]|msg]; split;
    try tauto; try discriminate; intros [_ H]; discriminate H.
Qed.

Lemma evaluate_loop event_data (rs acc : list AlertRule) :
  fold_left
    (fun matched_rules rule =>
       if matches rule event_data then matched_rules ++ [rule]
       else matched_rules) rs acc
  = acc ++ filter (fun r => matches r event_data = true) rs.
Proof.
  revert acc. induction rs as [|r rs IH]; intros acc; cbn [fold_left].
  - rewrite filter_nil, app_nil_r. reflexivity.
  - rewrite IH, filter_cons.
    destruct (matches r event_data).
    + rewrite decide_True by reflexivity. rewrite <- app_assoc. reflexivity.
    + rewrite decide_False by discriminate. reflexivity.
Qed.

(** On any registry, [evaluate_event] returns the enabled rules whose
    condition returns true, in the order of the registry, and changes
    nothing. *)
Lemma evaluate_event_filter event_data w :
  evaluate_event event_data w
  = (filter (selects event_data) (map snd (rules w)), w).
Proof.
  unfold evaluate_event, get_enabled_rules, bind, get_world, ret.
  f_equal. rewrite evaluate_loop. rewrite app_nil_l.
  induction (map snd (rules w)) as [|r rs IH]; [reflexivity|].
  rewrite !filter_cons.
  destruct (decide (enabled r = true)) as [He|He].
  - rewrite filter_cons, IH.
    destruct (decide (matches r event_data = true)) as [Hm|Hm].
    + rewrite decide_True by (apply matches_selects; assumption). reflexivity.
    + rewrite decide_False; [reflexivity|].
      intros Hs. apply Hm. apply matches_selects; assumption.
  - rewrite IH. rewrite decide_False; [reflexivity|].
    intros [Hs _]. contradiction.
Qed.

Lemma dict_set_fresh {V} k (v : V) d :
  k ∉ map fst d -> dict_set k v d = d ++ [(k, v)].
Proof.
  induction d as [|[k' v'] d IH]; cbn; [reflexivity|].
  intros Hk. apply not_elem_of_cons in Hk as [Hne Hk].
  destruct (String.eqb k' k) eqn:E.
  - apply String.eqb_eq in E. congruence.
  - rewrite IH by assumption. reflexivity.
Qed.

(** Rules registered under distinct names sit in the registry in the
    order of their registration. *)
Lemma register_all_rules rs w :
  NoDup (map fst (rules w) ++ map rule_name rs) ->
  rules (register_all rs w) = rules w ++ map (fun r => (rule_name r, r)) rs.
Proof.
  revert w. induction rs as [|r rs IH]; intros w Hnd; cbn.
  - rewrite app_nil_r. reflexivity.
  - unfold register_all in IH. rewrite IH.
    + cbn. rewrite dict_set_fresh.
      * rewrite <- app_assoc. reflexivity.
      * apply NoDup_app in Hnd as (_ & Hdisj & _).
        intros Hin. apply (Hdisj _ Hin). left.
    + cbn. rewrite dict_set_fresh.
      * rewrite map_app. cbn. rewrite <- app_assoc. exact Hnd.
      * apply NoDup_app in Hnd as (_ & Hdisj & _).
        intros Hin. apply (Hdisj _ Hin). left.
Qed.

(** C8.  After the rules [rs] have been registered under distinct names
    in an empty registry, [evaluate_event] returns, for every event,
    exactly the rules of [rs] that are enabled and whose condition
    returns true, in the order of registration.  It is a total function
    that leaves the state unchanged: a condition that raises makes its
    rule a non-match, nothing is propagated, and the rules registered
    after it are selected as usual. *)
Theorem evaluate_event_selects_in_registration_order
    (event_data : pydict) (rs : list AlertRule) (w : World) :
  rules w = [] ->
  NoDup (map rule_name rs) ->
  evaluate_event event_data (register_all rs w)
  = (filter (selects event_data) rs, register_all rs w).
Proof.
  intros Hempty Hnd. rewrite evaluate_event_filter.
  rewrite register_all_rules by (rewrite Hempty; exact Hnd).
  rewrite Hempty. cbn. rewrite map_map. cbn. rewrite map_id. reflexivity.
Qed.

Lemma evaluate_event_selects_in_registration_order_witness :
  rules empty_world = []
  /\ NoDup (map rule_name sample_rules)
  /\ fst (evaluate_event failure_event (register_all sample_rules empty_world))
     = [migration_failure; failure_page].
Proof.
  assert (Hnd : NoDup (map rule_name sample_rules)).
  { apply NoDup_ListNoDup. apply (NoDup_dec_sound String.string_dec) || idtac.
    vm_compute. repeat constructor; cbn; intuition discriminate. }
  split; [reflexivity|]. split; [exact Hnd|].
  rewrite (evaluate_event_selects_in_registration_order failure_event
             sample_rules empty_world eq_refl Hnd).
  vm_compute. reflexivity.
Defined.

(* ================================================================== *)
(** * The facade: [send_notification] and [handle_event] *)
(* ================================================================== *)












(** The two notifications of the example, as data. *)
Example handle_event_two_matches :
  let (result, w') := handle_event offline_env failure_event sample_registry in
  result = inr ["notif_0"; "notif_1"]
  /\ map level (queue w') = [CRITICAL; ERROR]
  /\ map recipients (queue w')
     = [["admin@example.com"]; ["oncall@example.com"; "lead@example.com"]]
  /\ fst (get_notification "notif_0" w') = nth_error (queue w') 0
  /\ fst (get_notification "notif_1" w') = nth_error (queue w') 1
  /\ size (notifications w') = 2%nat.
Proof. vm_compute. repeat split; reflexivity. Qed.

(* ================================================================== *)
(** * The template engine *)
(* ================================================================== *)

Lemma append_nil (r : string) : EmptyString +:+ r = r.
Proof. reflexivity. Qed.

Lemma append_cons c (s r : string) : String c s +:+ r = String c (s +:+ r).
Proof. reflexivity. Qed.

Lemma append_assoc (a b c : string) : (a +:+ b) +:+ c = a +:+ (b +:+ c).
Proof.
  induction a as [|x a IH]; [reflexivity|].
  rewrite !append_cons, IH. reflexivity.
Qed.

Lemma prefix_cons a s1 b s2 :
  String.prefix (String a s1) (String b s2)
  = if ascii_dec a b then String.prefix s1 s2 else false.
Proof. reflexivity. Qed.

Lemma prefix_of_append p rest : String.prefix p (p +:+ rest) = true.
Proof.
  induction p as [|x p IH].
  - rewrite append_nil. destruct rest; reflexivity.
  - rewrite append_cons, prefix_cons.
    destruct (ascii_dec x x); [exact IH|contradiction].
Qed.

Lemma no_brace_cons c s :
  no_brace (String c s) = true ->
  c <> "{"%char /\ c <> "}"%char /\ no_brace s = true.
Proof.
  simpl. intros H. apply andb_prop in H as [H Hs].
  apply andb_prop in H as [Ho Hc].
  apply negb_true_iff in Ho, Hc. apply Ascii.eqb_neq in Ho, Hc. auto.
Qed.

Lemma no_open_cons c s :
  no_open (String c s) = true -> c <> "{"%char /\ no_open s = true.
Proof.
  simpl. intros H. apply andb_prop in H as [Ho Hs].
  apply negb_true_iff in Ho. apply Ascii.eqb_neq in Ho. auto.
Qed.

Lemma no_brace_no_open s : no_brace s = true -> no_open s = true.
Proof.
  induction s as [|c s IH]; [reflexivity|]. intros H.
  apply no_brace_cons in H as (Ho & _ & Hs). simpl.
  rewrite (IH Hs), andb_true_r. apply negb_true_iff.
  apply Ascii.eqb_neq. exact Ho.
Qed.

Lemma no_open_app a b :
  no_open a = true -> no_open b = true -> no_open (a +:+ b) = true.
Proof.
  induction a as [|c a IH]; intros Ha Hb; [exact Hb|].
  rewrite append_cons. simpl in *.
  apply andb_prop in Ha as [Hc Ha]. rewrite Hc, (IH Ha Hb). reflexivity.
Qed.

(** ** Where the placeholder of [k] can occur *)

(** It starts with an opening brace: *)
Lemma placeholder_cons k :
  placeholder k = String "{" (String "{" (k +:+ "}}")).
Proof. reflexivity. Qed.

(** ... so that no occurrence starts at a character that is none. *)
Lemma prefix_placeholder_other k c s :
  c <> "{"%char -> String.prefix (placeholder k) (String c s) = false.
Proof.
  intros Hc. rewrite placeholder_cons, prefix_cons.
  destruct (ascii_dec "{" c) as [E|_]; [|reflexivity].
  exfalso. apply Hc. symmetry. exact E.
Qed.

(** A placeholder with brace-free key is a prefix of another only if the
    keys are the same. *)
Lemma prefix_key k k' rest :
  no_brace k = true -> no_brace k' = true ->
  String.prefix (k +:+ "}}") (k' +:+ "}}" +:+ rest) = true -> k = k'.
Proof.
  revert k'. induction k as [|a k IH]; intros k' Hk Hk' Hp.
  - destruct k' as [|b k']; [reflexivity|].
    apply no_brace_cons in Hk' as (_ & Hb & _).
    rewrite ?append_cons, ?append_nil in Hp. rewrite prefix_cons in Hp.
    destruct (ascii_dec "}" b) as [E|_]; [|discriminate Hp].
    exfalso. apply Hb. symmetry. exact E.
  - apply no_brace_cons in Hk as (_ & Ha & Hk).
    destruct k' as [|b k'].
    + rewrite ?append_cons, ?append_nil in Hp. rewrite prefix_cons in Hp.
      destruct (ascii_dec a "}") as [E|_]; [|discriminate Hp].
      contradiction.
    + apply no_brace_cons in Hk' as (_ & _ & Hk').
      rewrite ?append_cons, ?append_nil in Hp. rewrite prefix_cons in Hp.
      destruct (ascii_dec a b) as [E|_]; [|discriminate Hp].
      subst b. f_equal. apply (IH k' Hk Hk' Hp).
Qed.

(** ** One replacement, on a text that consists of tokens *)

Lemma replace_from_copy old new c s :
  String.prefix old (String c s) = false ->
  replace_from old new 0 (String c s) = String c (replace_from old new 0 s).
Proof. intros H. cbn [replace_from]. rewrite H. reflexivity. Qed.

Lemma replace_from_skip old new s rest :
  replace_from old new (String.length s) (s +:+ rest)
  = replace_from old new 0 rest.
Proof.
  induction s as [|x s IH]; [reflexivity|].
  rewrite append_cons. simpl. exact IH.
Qed.

(** A stretch of text without an opening brace is copied. *)
Lemma replace_from_no_open k new s rest :
  no_open s = true ->
  replace_from (placeholder k) new 0 (s +:+ rest)
  = s +:+ replace_from (placeholder k) new 0 rest.
Proof.
  induction s as [|c s IH]; intros Hs; [reflexivity|].
  apply no_open_cons in Hs as [Hc Hs].
  rewrite append_cons.
  rewrite replace_from_copy by (apply prefix_placeholder_other; exact Hc).
  rewrite (IH Hs). reflexivity.
Qed.

(** The placeholder of [k] itself is replaced. *)
Lemma replace_from_hole_same k new rest :
  replace_from (placeholder k) new 0 (placeholder k +:+ rest)
  = new +:+ replace_from (placeholder k) new 0 rest.
Proof.
  pose proof (prefix_of_append (placeholder k) rest) as Hp.
  pose proof (replace_from_skip (placeholder k) new
                (String "{" (k +:+ "}}")) rest) as Hskip.
  remember (placeholder k) as old eqn:Hold.
  rewrite placeholder_cons in Hold.
  assert (Htext : old +:+ rest
                  = String "{" (String "{" (k +:+ "}}") +:+ rest))
    by (rewrite Hold; reflexivity).
  rewrite Htext in *. cbn [replace_from]. rewrite Hp. f_equal.
  rewrite <- Hskip. f_equal. rewrite Hold. cbn [String.length]. lia.
Qed.

(** The placeholder of another key is copied. *)
Lemma replace_from_hole_other k k' new rest :
  no_brace k = true -> no_brace k' = true -> k' <> k ->
  replace_from (placeholder k) new 0 (placeholder k' +:+ rest)
  = placeholder k' +:+ replace_from (placeholder k) new 0 rest.
Proof.
  intros Hk Hk' Hne.
  assert (Htail : no_open (k' +:+ "}}") = true).
  { apply no_open_app; [apply no_brace_no_open; exact Hk'|reflexivity]. }
  assert (Hfirst : exists c s, (k' +:+ "}}") +:+ rest = String c s
                               /\ c <> "{"%char).
  { destruct k' as [|c k'].
    - exists "}"%char, (String "}" rest). split; [reflexivity|discriminate].
    - exists c, ((k' +:+ "}}") +:+ rest). split; [reflexivity|].
      apply no_brace_cons in Hk' as (Hc & _). exact Hc. }
  rewrite (placeholder_cons k'), !append_cons.
  rewrite replace_from_copy.
  - f_equal. rewrite replace_from_copy.
    + f_equal. apply replace_from_no_open. exact Htail.
    + destruct Hfirst as (c & s & E & Hc). rewrite E.
      rewrite placeholder_cons, prefix_cons.
      destruct (ascii_dec "{" "{") as [_|N]; [|reflexivity].
      rewrite prefix_cons.
      destruct (ascii_dec "{" c) as [E'|_]; [|reflexivity].
      exfalso. apply Hc. symmetry. exact E'.
  - destruct (String.prefix (placeholder k)
                (String "{" (String "{" ((k' +:+ "}}") +:+ rest))))
      eqn:Hp; [|reflexivity].
    exfalso. apply Hne. symmetry.
    rewrite placeholder_cons, prefix_cons in Hp.
    destruct (ascii_dec "{" "{") as [_|N]; [|contradiction].
    rewrite prefix_cons in Hp.
    destruct (ascii_dec "{" "{") as [_|N]; [|contradiction].
    rewrite append_assoc in Hp.
    exact (prefix_key k k' rest Hk Hk' Hp).
Qed.

Lemma str_replace_placeholder k new s :
  str_replace (placeholder k) new s = replace_from (placeholder k) new 0 s.
Proof. reflexivity. Qed.

(** One pass of the loop fills the placeholders of its key and leaves
    the other tokens alone. *)
Lemma replace_tokens k v ts :
  no_brace k = true -> forallb plain_token ts = true ->
  str_replace (placeholder k) v (tokens_text ts)
  = tokens_text (map (fill k v) ts).
Proof.
  intros Hk. rewrite str_replace_placeholder.
  induction ts as [|t ts IH]; intros Hts; [reflexivity|].
  simpl in Hts. apply andb_prop in Hts as [Ht Hts].
  cbn [tokens_text map]. destruct t as [s|k']; cbn [token_text fill].
  - rewrite replace_from_no_open by (apply no_brace_no_open; exact Ht).
    rewrite (IH Hts). reflexivity.
  - destruct (String.eqb k' k) eqn:E.
    + apply String.eqb_eq in E. subst k'.
      rewrite replace_from_hole_same, (IH Hts). reflexivity.
    + apply String.eqb_neq in E.
      rewrite (replace_from_hole_other k k' v _ Hk Ht E), (IH Hts).
      reflexivity.
Qed.

Lemma fill_plain k v ts :
  no_brace v = true -> forallb plain_token ts = true ->
  forallb plain_token (map (fill k v) ts) = true.
Proof.
  intros Hv. induction ts as [|t ts IH]; intros Hts; [reflexivity|].
  simpl in Hts. apply andb_prop in Hts as [Ht Hts].
  cbn [map forallb]. rewrite (IH Hts), andb_true_r.
  destruct t as [s|k']; cbn [fill]; [exact Ht|].
  destruct (String.eqb k' k); [exact Hv|exact Ht].
Qed.

Lemma substitute_cons {Any} (str : Any -> string) k v context t :
  substitute_token str ((k, v) :: context) t
  = substitute_token str context (fill k (str v) t).
Proof.
  destruct t as [s|k']; [reflexivity|]. cbn [substitute_token fill dict_get].
  rewrite (String.eqb_sym k k').
  destruct (String.eqb k' k); reflexivity.
Qed.

Lemma substitute_nil {Any} (str : Any -> string) ts :
  map (substitute_token str []) ts = ts.
Proof.
  induction ts as [|t ts IH]; [reflexivity|]. cbn [map]. rewrite IH.
  destruct t; reflexivity.
Qed.

(** The whole loop, on one text. *)
Lemma render_text_tokens {Any} (str : Any -> string) context ts :
  forallb (fun kv => no_brace (fst kv) && no_brace (str (snd kv))) context
  = true ->
  forallb plain_token ts = true ->
  fold_left (render_text str) context (tokens_text ts)
  = tokens_text (map (substitute_token str context) ts).
Proof.
  revert ts. induction context as [|[k v] context IH]; intros ts Hctx Hts.
  - rewrite substitute_nil. reflexivity.
  - simpl in Hctx. apply andb_prop in Hctx as [Hkv Hctx].
    apply andb_prop in Hkv as [Hk Hv].
    cbn [fold_left]. unfold render_text at 2. cbn [fst snd].
    rewrite (replace_tokens k (str v) ts Hk Hts).
    rewrite (IH _ Hctx (fill_plain k (str v) ts Hv Hts)).
    rewrite map_map. f_equal. apply map_ext. intros t.
    symmetry. apply substitute_cons.
Qed.

(** [render] runs the loop on the subject and on the body. *)
Lemma render_fold {Any} (str : Any -> string) t context :
  render str t context
  = (fold_left (render_text str) context (template_subject t),
     fold_left (render_text str) context (template_body t)).
Proof.
  unfold render.
  generalize (template_subject t) (template_body t).
  induction context as [|item context IH]; intros s b; [reflexivity|].
  cbn [fold_left fst snd]. rewrite IH. reflexivity.
Qed.

(** C7, as stated, fails.  With the context
    [{name: "{{status}}", status: "ok"}] the body ["Hi {{name}}"], whose
    only placeholder is [{{name}}], is rendered as ["Hi ok"] and not as
    ["Hi {{status}}"], the text with [{{name}}] replaced by
    [context[name]]: the later pass for [status] rewrites the value that
    the pass for [name] has put in. *)
Lemma render_substitution_counterexample :
  template_body hello = tokens_text hello_body_tokens
  /\ forallb plain_token hello_body_tokens = true
  /\ tokens_text
       (map (substitute_token (fun s : string => s) nested_context)
          hello_body_tokens)
     = "Hi {{status}}"
  /\ snd (render (fun s : string => s) hello nested_context) = "Hi ok"
  /\ snd (render (fun s : string => s) hello nested_context)
     <> tokens_text
          (map (substitute_token (fun s : string => s) nested_context)
             hello_body_tokens).
Proof.
  split; [reflexivity|]. split; [reflexivity|]. split; [reflexivity|].
  split; [reflexivity|]. vm_compute. discriminate.
Qed.

(** C7, amended.  Let the subject and the body of a template consist of
    literal text and placeholders [{{key}}], with no brace in the literal
    text or in a key, and let no key of the context and no stringified
    value contain a brace.  Then [render] returns the subject and the
    body in which every placeholder whose key is in the context is
    replaced by the [str()] of its value and every other placeholder, as
    all literal text, is left as it is. *)
Theorem render_substitutes_placeholders {Any} (str : Any -> string)
    (t : NotificationTemplate) (subject_tokens body_tokens : list token)
    (context : list (string * Any)) :
  template_subject t = tokens_text subject_tokens ->
  template_body t = tokens_text body_tokens ->
  forallb plain_token subject_tokens = true ->
  forallb plain_token body_tokens = true ->
  forallb (fun kv => no_brace (fst kv) && no_brace (str (snd kv))) context
  = true ->
  render str t context
  = (tokens_text (map (substitute_token str context) subject_tokens),
     tokens_text (map (substitute_token str context) body_tokens)).
Proof.
  intros Hs Hb Hst Hbt Hctx. rewrite render_fold, Hs, Hb.
  rewrite (render_text_tokens str context subject_tokens Hctx Hst).
  rewrite (render_text_tokens str context body_tokens Hctx Hbt).
  reflexivity.
Qed.

Lemma render_substitutes_placeholders_witness :
  template_subject greeting = tokens_text greeting_subject_tokens
  /\ template_body greeting = tokens_text greeting_body_tokens
  /\ forallb plain_token greeting_subject_tokens = true
  /\ forallb plain_token greeting_body_tokens = true
  /\ forallb (fun kv : string * string => no_brace (fst kv) && no_brace (snd kv))
       [("name", "Alice")] = true
  /\ render (fun s : string => s) greeting [("name", "Alice")]
     = ("Status of Alice", "Hi Alice, status {{status}}").
Proof.
  split; [reflexivity|]. split; [reflexivity|]. split; [reflexivity|].
  split; [reflexivity|]. split; [reflexivity|].
  rewrite (render_substitutes_placeholders (fun s : string => s) greeting
             greeting_subject_tokens greeting_body_tokens
             [("name", "Alice")] eq_refl eq_refl eq_refl eq_refl eq_refl).
  reflexivity.
Defined.

(** The example of the specification, computed. *)
Example render_greeting :
  render (fun s : string => s) greeting [("name", "Alice")]
  = ("Status of Alice", "Hi Alice, status {{status}}").
Proof. reflexivity. Qed.

(* ================================================================== *)
(** * More on the delivery worker *)
(* ================================================================== *)

(** X1.  A successful delivery attempt on a notification that is not
    SENT yet makes it SENT with [sent_at] the next clock reading and
    nothing else changed, appends exactly one audit entry "SENT" for its
    id, counts one more sent and one more processed notification, and
    saves the row. *)
Theorem successful_attempt_marks_sent
    (env : Env) (n : Notification) (w : World) :
  status n <> SENT ->
  attempt_succeeds env n w = true ->
  let (n', w') := _process_notification env n w in
  n' = set_sent_at (Some (clock env (utcnow_calls w))) (set_status SENT n)
  /\ notification_audit w'
     = notification_audit w ++
       [{| audit_notification_id := notification_id n;
           audit_event := "SENT";
           audit_timestamp := clock env (2 + utcnow_calls w)%nat;
           audit_details :=
             Some (JObj [("timestamp",
                          JStr (isoformat
                                  (clock env (1 + utcnow_calls w)%nat)))]) |}]
  /\ stats w'
     = {| sent := sent (stats w) + 1; failed := failed (stats w);
          retried := retried (stats w);
          processed := processed (stats w) + 1 |}
  /\ (forall row, notification_to_row n' = Some row ->
        notifications w' !! notification_id n = Some row).
Proof.
  intros Hs Hok. unfold _process_notification, attempt_succeeds in *.
  destruct (decide (status n = SENT)); [contradiction|].
  unfold bind at 1.
  destruct (send_cases env n w) as (b & e & k & Hsend & He).
  rewrite Hsend in *. cbn [fst snd] in Hok. subst b.
  rewrite (He eq_refl). cbn [with_error].
  run_monad.
  destruct (notification_to_row
              (set_sent_at (Some (clock env (utcnow_calls w)))
                 (set_status SENT n))) as [row|] eqn:Hrow; cbn.
  - repeat split. intros row' Hrow'. rewrite Hrow in Hrow'.
    injection Hrow' as <-. apply lookup_insert_eq.
  - repeat split. intros row' Hrow'. rewrite Hrow in Hrow'.
    discriminate Hrow'.
Qed.

Lemma successful_attempt_marks_sent_witness :
  status sample_notification <> SENT
  /\ attempt_succeeds accepting_env sample_notification empty_world = true
  /\ status (fst (_process_notification accepting_env sample_notification
                    empty_world)) = SENT.
Proof.
  assert (H1 : status sample_notification <> SENT) by discriminate.
  assert (H2 : attempt_succeeds accepting_env sample_notification empty_world
               = true) by (vm_compute; reflexivity).
  pose proof (successful_attempt_marks_sent accepting_env sample_notification
                empty_world H1 H2) as H.
  destruct (_process_notification accepting_env sample_notification
              empty_world) as [n' w'].
  destruct H as (-> & _).
  split; [exact H1|]. split; [exact H2|]. reflexivity.
Defined.

(** The counters and the calls of the transport after a processing
    step. *)
Lemma process_counters env n w :
  status n <> SENT ->
  let w' := snd (_process_notification env n w) in
  (send_calls w <= send_calls w' <= S (send_calls w))%nat
  /\ stats w' =
     if attempt_succeeds env n w then
       {| sent := sent (stats w) + 1; failed := failed (stats w);
          retried := retried (stats w);
          processed := processed (stats w) + 1 |}
     else if retry_count n <? max_retries n then
       match retry_time (clock env (utcnow_calls w)) (retry_count n + 1) with
       | Some _ =>
           {| sent := sent (stats w); failed := failed (stats w);
              retried := retried (stats w) + 1;
              processed := processed (stats w) + 1 |}
       | None => stats w
       end
     else
       {| sent := sent (stats w); failed := failed (stats w) + 1;
          retried := retried (stats w);
          processed := processed (stats w) + 1 |}.
Proof.
  intros Hs. cbv zeta. unfold attempt_succeeds.
  remember (snd (_process_notification env n w)) as w' eqn:Hw'.
  unfold _process_notification in Hw'.
  destruct (decide (status n = SENT)); [contradiction|].
  unfold bind at 1 in Hw'.
  destruct (send_cases env n w) as (b & e & k & Hsend & He).
  assert (Hk : (send_calls w <= k <= S (send_calls w))%nat).
  { unfold _send_notification in Hsend.
    destruct (email_sender env) as [sender|].
    - unfold bind, get_world, modify, ret in Hsend. cbn in Hsend.
      destruct (send_email sender _ _ _ _ _) as [[|] ?|?];
        apply (f_equal (fun r => send_calls (snd r))) in Hsend;
        cbn in Hsend; lia.
    - unfold ret in Hsend.
      apply (f_equal (fun r => send_calls (snd r))) in Hsend.
      cbn in Hsend. lia. }
  rewrite Hsend in Hw' |- *. cbn [fst snd].
  destruct (with_error_fields e n) as (_ & Hrc & Hmr & _).
  rewrite <- Hrc, <- Hmr. unfold retry_time.
  destruct b; [|destruct (retry_count (with_error e n)
                          <? max_retries (with_error e n))];
    revert Hw'; run_monad.
  - destruct (notification_to_row _); cbn; intros ->; cbn; split;
      [lia|reflexivity|lia|reflexivity].
  - destruct (backoff_minutes (retry_count (with_error e n) + 1)) as [m|];
      cbn; [|intros ->; cbn; split; [lia|reflexivity]].
    destruct (datetime_add (clock env (utcnow_calls w))
                (timedelta_of_minutes m)); cbn;
      [|intros ->; cbn; split; [lia|reflexivity]].
    destruct (notification_to_row _); cbn; intros ->; cbn; split;
      [lia|reflexivity|lia|reflexivity].
  - destruct (notification_to_row _); cbn; intros ->; cbn; split;
      [lia|reflexivity|lia|reflexivity].
Qed.

(** X2.  A processing step on a notification that is not SENT is
    counted at most once, and consistently: no counter decreases,
    [processed] grows by as much as [sent], [retried] and [failed]
    together, which is 1 or 0, and the transport is called at most once.
    It is counted exactly once when the retry counter is not negative and
    the clock reading of the step lies at least an hour (3600000000
    microseconds) before [datetime.max]; a step whose retry time is no
    date ends in the exception handler and counts nothing. *)
Theorem processing_step_is_counted_once
    (env : Env) (n : Notification) (w : World) :
  status n <> SENT ->
  let w' := snd (_process_notification env n w) in
  let counted := processed (stats w') - processed (stats w) in
  sent (stats w) <= sent (stats w')
  /\ retried (stats w) <= retried (stats w')
  /\ failed (stats w) <= failed (stats w')
  /\ sent (stats w') + retried (stats w') + failed (stats w')
     = sent (stats w) + retried (stats w) + failed (stats w) + counted
  /\ (counted = 0 \/ counted = 1)
  /\ (send_calls w <= send_calls w' <= S (send_calls w))%nat
  /\ (0 <= retry_count n ->
      0 <= clock env (utcnow_calls w) <= 315537897599999999 - 3600000000 ->
      counted = 1).
Proof.
  intros Hs. cbv zeta.
  destruct (process_counters env n w Hs) as (Hcalls & Hstats).
  rewrite Hstats.
  destruct (attempt_succeeds env n w); [cbn; repeat split; lia|].
  destruct (retry_count n <? max_retries n);
    [|cbn; repeat split; lia].
  destruct (retry_time (clock env (utcnow_calls w)) (retry_count n + 1))
    as [t|] eqn:Ht; [cbn; repeat split; lia|].
  repeat split; try lia.
  intros Hrc Hclock.
  destruct (retry_time_in_time env w (retry_count n) Hclock Hrc) as [t Ht'].
  rewrite Ht in Ht'. discriminate Ht'.
Qed.

Lemma processing_step_is_counted_once_witness :
  status sample_notification <> SENT
  /\ processed (stats (snd (_process_notification refusing_env
                              sample_notification empty_world)))
     - processed (stats empty_world) = 1.
Proof.
  assert (H1 : status sample_notification <> SENT) by discriminate.
  pose proof (processing_step_is_counted_once refusing_env sample_notification
                empty_world H1) as H.
  cbv zeta in H. destruct H as (_ & _ & _ & _ & _ & _ & H).
  split; [exact H1|]. apply H.
  - vm_compute. discriminate.
  - vm_compute. split; discriminate.
Defined.

(** X3.  The audit log is append-only under processing: a step keeps
    every entry in place and adds at most one, which is an entry "SENT"
    for the notification processed. *)
Theorem processing_only_appends_sent_audit
    (env : Env) (n : Notification) (w : World) :
  exists added,
    notification_audit (snd (_process_notification env n w))
    = notification_audit w ++ added
    /\ (length added <= 1)%nat
    /\ Forall (fun entry => audit_notification_id entry = notification_id n
                            /\ audit_event entry = "SENT") added.
Proof.
  unfold _process_notification.
  destruct (decide (status n = SENT)).
  { exists []. cbn. rewrite app_nil_r. repeat split; [lia|constructor]. }
  unfold bind at 1.
  destruct (send_cases env n w) as (b & e & k & Hsend & He).
  rewrite Hsend.
  destruct (with_error_fields e n) as (_ & _ & _ & _ & Hid).
  destruct b; [|destruct (retry_count (with_error e n)
                          <? max_retries (with_error e n))];
    run_monad.
  - destruct (notification_to_row _); cbn;
      (eexists [_]; split; [reflexivity|]; split; [cbn; lia|];
       constructor; [split; [exact Hid|reflexivity]|constructor]).
  - destruct (backoff_minutes (retry_count (with_error e n) + 1)) as [m|];
      cbn;
      [destruct (datetime_add (clock env (utcnow_calls w))
                   (timedelta_of_minutes m)); cbn;
       [destruct (notification_to_row _); cbn|]|];
      (exists []; rewrite app_nil_r; repeat split; [cbn; lia|constructor]).
  - destruct (notification_to_row _); cbn;
      (exists []; rewrite app_nil_r; repeat split; [cbn; lia|constructor]).
Qed.

(** X4.  A failed attempt on a counter that is not negative and below
    the limit, made at least an hour before [datetime.max], schedules the
    retry [min (2 ^ retry_count) 60] minutes after its clock reading, for
    the counter after the increment: at least 2 and at most 60 minutes
    (of 60000000 microseconds) later, and exactly 60 minutes later from
    the sixth retry on. *)
Theorem retry_delay_between_two_and_sixty_minutes
    (env : Env) (n : Notification) (w : World) :
  status n <> SENT ->
  attempt_succeeds env n w = false ->
  0 <= retry_count n < max_retries n ->
  0 <= clock env (utcnow_calls w) <= 315537897599999999 - 3600000000 ->
  exists delay,
    next_retry (fst (_process_notification env n w))
    = Some (clock env (utcnow_calls w) + delay)
    /\ delay = Z.min (2 ^ (retry_count n + 1)) 60 * 60000000
    /\ 2 * 60000000 <= delay <= 60 * 60000000
    /\ (5 <= retry_count n -> delay = 60 * 60000000).
Proof.
  intros Hs Hfail [H0 Hlt] Hclock.
  pose proof (process_step env n w Hs) as H. cbv zeta in H.
  rewrite Hfail in H. apply Z.ltb_lt in Hlt. rewrite Hlt in H.
  destruct H as (_ & _ & _ & _ & Hnext).
  pose proof (backoff_at_most_an_hour (retry_count n) H0) as Hb.
  rewrite retry_time_in_range in Hnext by lia.
  exists (Z.min (2 ^ (retry_count n + 1)) 60 * 60000000).
  split; [exact Hnext|]. split; [reflexivity|].
  split; [lia|]. intros H5.
  assert (H64 : 2 ^ 6 <= 2 ^ (retry_count n + 1))
    by (apply Z.pow_le_mono_r; lia).
  change (2 ^ 6) with 64 in H64. rewrite Z.min_r by lia. reflexivity.
Qed.

Lemma retry_delay_between_two_and_sixty_minutes_witness :
  status retried_twice <> SENT
  /\ attempt_succeeds offline_env retried_twice empty_world = false
  /\ 0 <= retry_count retried_twice < max_retries retried_twice
  /\ 0 <= clock offline_env (utcnow_calls empty_world)
     <= 315537897599999999 - 3600000000
  /\ exists delay,
       next_retry (fst (_process_notification offline_env retried_twice
                          empty_world))
       = Some (clock offline_env (utcnow_calls empty_world) + delay)
       /\ 2 * 60000000 <= delay <= 60 * 60000000.
Proof.
  assert (H1 : status retried_twice <> SENT) by (vm_compute; discriminate).
  assert (H2 : attempt_succeeds offline_env retried_twice empty_world = false)
    by (vm_compute; reflexivity).
  assert (H3 : 0 <= retry_count retried_twice < max_retries retried_twice)
    by (vm_compute; split; [discriminate|reflexivity]).
  assert (H4 : 0 <= clock offline_env (utcnow_calls empty_world)
               <= 315537897599999999 - 3600000000)
    by (vm_compute; split; discriminate).
  destruct (retry_delay_between_two_and_sixty_minutes offline_env
              retried_twice empty_world H1 H2 H3 H4)
    as (delay & Hn & _ & Hd & _).
  split; [exact H1|]. split; [exact H2|]. split; [exact H3|].
  split; [exact H4|].
  exists delay. split; [exact Hn | exact Hd].
Defined.

Lemma process_step_sent_at env n w :
  status n <> SENT -> attempt_succeeds env n w = false ->
  sent_at (fst (_process_notification env n w)) = sent_at n.
Proof.
  intros Hs Hfail. rewrite process_fst by assumption.
  rewrite Hfail. unfold attempt_succeeds in Hfail.
  destruct (send_cases env n w) as (b & e & k & Hsend & _).
  rewrite Hsend in *. cbn [fst snd] in *. subst b.
  unfold after_attempt.
  destruct (retry_count (with_error e n) <? max_retries (with_error e n));
    [destruct (retry_time _ _)|]; destruct e; reflexivity.
Qed.

(** The status of a reachable notification against its history. *)
Lemma reachable_status env n last :
  reachable env n last ->
  (last = None <-> status n = PENDING)
  /\ (last = Some true <-> status n = SENT)
  /\ (is_Some (sent_at n) <-> status n = SENT)
  /\ status n <> ARCHIVED
  /\ max_retries n = 3.
Proof.
  induction 1 as [id lvl subj bdy rcpts meta now
                 | n last w Hreach IH
                 | n last row n' Hreach IH Hrow Hback].
  - cbn. split; [tauto|]. split; [split; discriminate|].
    split; [split; [intros [x Hx]|]; discriminate|].
    split; [discriminate|reflexivity].
  - destruct IH as (Hnone & Hsent & Hat & Harch & Hmax).
    destruct (decide (status n = SENT)) as [Hs|Hs].
    + rewrite (process_sent env n w Hs). cbn. auto.
    + pose proof (process_step env n w Hs) as H. cbv zeta in H.
      destruct H as (Hmr & _ & H).
      destruct (attempt_succeeds env n w) eqn:Hok.
      * destruct H as (Hst & _ & _ & Hsa). rewrite Hst, Hsa, Hmr.
        split; [split; discriminate|]. split; [tauto|].
        split; [split; eauto|]. split; [discriminate|exact Hmax].
      * rewrite (process_step_sent_at env n w Hs Hok), Hmr.
        assert (Hst : status (fst (_process_notification env n w)) = RETRYING
                      \/ status (fst (_process_notification env n w)) = FAILED).
        { destruct (retry_count n <? max_retries n); tauto. }
        assert (Hno : ~ is_Some (sent_at n)) by tauto.
        destruct Hst as [-> | ->];
          (split; [split; discriminate|]);
          (split; [split; discriminate|]);
          (split; [split; [contradiction|discriminate]|]);
          (split; [discriminate|exact Hmax]).
  - destruct (row_round_trip_fields n row n' Hrow Hback) as (meta & ->).
    exact IH.
Qed.



(** X6.  For every reachable notification, [sent_at] is set exactly
    when the status is SENT; the status is never ARCHIVED and
    [max_retries] is the default 3. *)
Theorem sent_at_set_iff_sent
    (env : Env) (n : Notification) (last : option bool) :
  reachable env n last ->
  (is_Some (sent_at n) <-> status n = SENT)
  /\ status n <> ARCHIVED
  /\ max_retries n = 3.
Proof.
  intros Hreach.
  destruct (reachable_status env n last Hreach) as (_ & _ & Hat & Harch & Hmax).
  auto.
Qed.

Lemma sent_at_set_iff_sent_witness :
  reachable flaky_env sent_after_retry (Some true)
  /\ (is_Some (sent_at sent_after_retry) <-> status sent_after_retry = SENT).
Proof.
  split; [exact sent_after_retry_reachable|].
  apply (sent_at_set_iff_sent flaky_env sent_after_retry (Some true)
           sent_after_retry_reachable).
Defined.

(* ================================================================== *)
(** * More on the store *)
(* ================================================================== *)

Lemma sqlite_integer_fits z :
  is_Some (sqlite_integer z) <-> fits_sqlite z.
Proof.
  unfold sqlite_integer, fits_sqlite.
  destruct (- 2 ^ 63 <=? z) eqn:E1; destruct (z <? 2 ^ 63) eqn:E2; cbn;
    rewrite ?Z.leb_le, ?Z.leb_gt, ?Z.ltb_lt, ?Z.ltb_ge in *;
    split; try (intros [x Hx]; discriminate Hx); try lia; eauto.
Qed.

Lemma notification_to_row_Some n :
  is_Some (notification_to_row n)
  <-> is_Some (to_json (PyDict (metadata n)))
      /\ fits_sqlite (retry_count n) /\ fits_sqlite (max_retries n).
Proof.
  rewrite <- !sqlite_integer_fits. unfold notification_to_row.
  destruct (recipients_round_trip (recipients n)) as (jr & -> & _).
  split.
  - intros [row Hrow].
    destruct (sqlite_integer (retry_count n)); [|discriminate Hrow].
    destruct (sqlite_integer (max_retries n)); [|discriminate Hrow].
    destruct (to_json (PyDict (metadata n))); [|discriminate Hrow].
    split; [eauto|split; eauto].
  - intros ([jm ->] & [rc ->] & [mr ->]). eauto.
Qed.

(** X8.  The last write wins: saving a notification over one with the
    same id leaves the store as if only the second had been saved, and
    saving the same notification twice is the same as saving it once. *)
Theorem save_notification_last_write_wins
    (n1 n2 : Notification) (w : World) :
  notification_id n1 = notification_id n2 ->
  fst (save_notification n2 w) = true ->
  snd (save_notification n2 (snd (save_notification n1 w)))
  = snd (save_notification n2 w).
Proof.
  intros Hid. unfold save_notification.
  destruct (notification_to_row n2) as [row2|];
    [|intros H; discriminate H].
  intros _.
  destruct (notification_to_row n1) as [row1|];
    unfold bind, modify, ret; cbn; [|reflexivity].
  rewrite Hid. unfold set_notifications. cbn.
  rewrite insert_insert_eq. reflexivity.
Qed.

Lemma save_notification_last_write_wins_witness :
  notification_id sample_notification = notification_id retried_once
  /\ fst (save_notification retried_once empty_world) = true
  /\ snd (save_notification retried_once
            (snd (save_notification sample_notification empty_world)))
     = snd (save_notification retried_once empty_world).
Proof.
  assert (H1 : notification_id sample_notification
               = notification_id retried_once) by (vm_compute; reflexivity).
  assert (H2 : fst (save_notification retried_once empty_world) = true)
    by (vm_compute; reflexivity).
  split; [exact H1|]. split; [exact H2|].
  exact (save_notification_last_write_wins sample_notification retried_once
           empty_world H1 H2).
Defined.

Lemma to_json_items_listify l js :
  Forall (fun v => forall j, to_json v = Some j -> of_json j = listify v) l ->
  to_json_items l = Some js -> map of_json js = map listify l.
Proof.
  intros Hl. revert js. induction Hl as [|v l Hv _ IH]; intros js; cbn.
  - intros [= <-]. reflexivity.
  - destruct (to_json v) as [j|]; [|discriminate].
    destruct (to_json_items l) as [js'|]; [|discriminate].
    intros [= <-]. cbn. rewrite (Hv j eq_refl), (IH js' eq_refl).
    reflexivity.
Qed.

(** What JSON gives back for a serializable value. *)
Lemma of_json_to_json v j : to_json v = Some j -> of_json j = listify v.
Proof.
  revert j.
  induction v as [ |b|z|s|l IH|l IH|d IH|c] using pyval_ind; intros j Hj.
  - injection Hj as <-. reflexivity.
  - injection Hj as <-. reflexivity.
  - injection Hj as <-. reflexivity.
  - injection Hj as <-. reflexivity.
  - rewrite to_json_list in Hj.
    destruct (to_json_items l) as [js|] eqn:Hjs; [|discriminate Hj].
    injection Hj as <-. cbn. f_equal.
    exact (to_json_items_listify l js IH Hjs).
  - rewrite to_json_tuple in Hj.
    destruct (to_json_items l) as [js|] eqn:Hjs; [|discriminate Hj].
    injection Hj as <-. cbn. f_equal.
    exact (to_json_items_listify l js IH Hjs).
  - rewrite to_json_dict in Hj.
    destruct (to_json_members d) as [js|] eqn:Hjs; [|discriminate Hj].
    injection Hj as <-. cbn. f_equal.
    revert js Hjs. induction IH as [|[k v] d Hv _ IHd]; intros js; cbn.
    + intros [= <-]. reflexivity.
    + cbn in Hv. destruct (to_json v) as [jv|]; [|discriminate].
      destruct (to_json_members d) as [js'|]; [|discriminate].
      intros [= <-]. cbn. rewrite (Hv jv eq_refl), (IHd js' eq_refl).
      reflexivity.
  - discriminate Hj.
Qed.

Lemma metadata_round_trip_listify d :
  is_Some (to_json (PyDict d)) ->
  metadata_round_trip d = Some (listify_dict d).
Proof.
  intros [j Hj]. unfold metadata_round_trip. rewrite Hj. cbn.
  rewrite (of_json_to_json _ _ Hj). reflexivity.
Qed.

(** X9.  After a successful [save_notification], [get_notification]
    with the id of the notification returns it with every tuple of its
    metadata replaced by the list of its items, and with every other
    field as saved. *)
Theorem get_after_save_listifies_metadata
    (n : Notification) (w w' : World) :
  save_notification n w = (true, w') ->
  get_notification (notification_id n) w'
  = (Some (set_metadata (listify_dict (metadata n)) n), w').
Proof.
  intros Hsave. rewrite (get_after_save n w w' Hsave).
  assert (Hrow : is_Some (notification_to_row n)).
  { unfold save_notification in Hsave.
    destruct (notification_to_row n); [eauto|discriminate Hsave]. }
  apply notification_to_row_Some in Hrow as (Hmeta & _).
  rewrite (metadata_round_trip_listify _ Hmeta). reflexivity.
Qed.

Lemma get_after_save_listifies_metadata_witness :
  exists w',
    save_notification tuple_notification empty_world = (true, w')
    /\ fst (get_notification "notif_1" w')
       = Some (set_metadata
                 [("files", PyList [PyStr "a.txt"; PyStr "b.txt"])]
                 tuple_notification).
Proof.
  destruct (save_notification tuple_notification empty_world)
    as [ok w'] eqn:Hsave.
  assert (Hok : ok = true).
  { change ok with (fst (ok, w')). rewrite <- Hsave. vm_compute. reflexivity. }
  subst ok. exists w'. split; [reflexivity|].
  pose proof (get_after_save_listifies_metadata tuple_notification
                empty_world w' Hsave) as H.
  change (notification_id tuple_notification) with "notif_1" in H.
  rewrite H. reflexivity.
Defined.

(* ================================================================== *)
(** * The queries of the store *)
(* ================================================================== *)

Lemma row_fields row n :
  _row_to_notification row = Some n ->
  created_at n = col_created_at row
  /\ col_status row = status_value (status n).
Proof.
  unfold _row_to_notification.
  destruct (level_of_value (col_level row)); [|discriminate].
  destruct (as_str_list (of_json (col_recipients row))); [|discriminate].
  destruct (status_of_value (col_status row)) as [st|] eqn:Hst;
    [|discriminate].
  destruct (match col_metadata row with
            | Some j => as_dict (of_json j)
            | None => Some []
            end); [|discriminate].
  intros [= <-]. split; [reflexivity|].
  exact (status_of_value_inv _ _ Hst).
Qed.

Lemma is_pending_row_status row n :
  _row_to_notification row = Some n ->
  is_pending_row row = true <-> status n = PENDING \/ status n = RETRYING.
Proof.
  intros Hn. apply row_fields in Hn as [_ Hst]. unfold is_pending_row.
  rewrite Hst, orb_true_iff, !String.eqb_eq.
  destruct (status n); cbn; split;
    intros [H|H]; try discriminate H; auto.
Qed.

Lemma elem_of_table_rows row w :
  row ∈ table_rows w <-> exists id, notifications w !! id = Some row.
Proof.
  unfold table_rows. rewrite list_elem_of_fmap. split.
  - intros ([id r] & -> & Hin). exists id.
    apply elem_of_map_to_list in Hin. exact Hin.
  - intros [id Hid]. exists (id, row). split; [reflexivity|].
    apply elem_of_map_to_list. exact Hid.
Qed.

Lemma elem_of_mapM {A B} (f : A -> option B) l k y :
  mapM f l = Some k -> y ∈ k <-> exists x, x ∈ l /\ f x = Some y.
Proof.
  intros HF. apply mapM_Some in HF. split.
  - intros Hy. apply list_elem_of_lookup in Hy as [i Hi].
    destruct (Forall2_lookup_r _ _ _ _ _ HF Hi) as (x & Hx & HR).
    exists x. split; [|exact HR]. apply list_elem_of_lookup. eauto.
  - intros (x & Hx & HR). apply list_elem_of_lookup in Hx as [i Hi].
    destruct (Forall2_lookup_l _ _ _ _ _ HF Hi) as (y' & Hy' & HR').
    rewrite HR in HR'. injection HR' as <-.
    apply list_elem_of_lookup. eauto.
Qed.

Lemma rows_to_notifications_Some rows :
  Forall (fun r => is_Some (_row_to_notification r)) rows ->
  mapM _row_to_notification rows = Some (rows_to_notifications rows).
Proof.
  intros H. apply mapM_is_Some_2 in H as [k Hk].
  unfold rows_to_notifications. rewrite Hk. reflexivity.
Qed.

(** The conversion of sorted rows gives sorted notifications. *)
Lemma rows_sorted (R : relation Row) (R' : relation Notification) rows k :
  (forall r1 r2 n1 n2,
      _row_to_notification r1 = Some n1 ->
      _row_to_notification r2 = Some n2 -> R r1 r2 -> R' n1 n2) ->
  mapM _row_to_notification rows = Some k ->
  StronglySorted R rows -> StronglySorted R' k.
Proof.
  intros HR HF. apply mapM_Some in HF.
  induction HF as [|r n rows k Hn HF IH]; intros Hs; [constructor|].
  apply StronglySorted_inv in Hs as [Hs Hall].
  constructor; [exact (IH Hs)|].
  apply List.Forall_forall. intros n2 Hn2. apply list_elem_of_In in Hn2.
  apply list_elem_of_lookup in Hn2 as [i Hi].
  destruct (Forall2_lookup_r _ _ _ _ _ HF Hi) as (r2 & Hr2 & Hrn2).
  apply (HR r r2 n n2 Hn Hrn2).
  rewrite List.Forall_forall in Hall. apply Hall.
  apply list_elem_of_In, list_elem_of_lookup. eauto.
Qed.

Lemma created_before_total : Total created_before.
Proof. intros r1 r2. unfold created_before. lia. Qed.

Lemma created_before_trans : Transitive created_before.
Proof. intros r1 r2 r3. unfold created_before. lia. Qed.

Lemma created_after_total : Total created_after.
Proof. intros r1 r2. unfold created_after. lia. Qed.

Lemma created_after_trans : Transitive created_after.
Proof. intros r1 r2 r3. unfold created_after. lia. Qed.

Lemma well_stored_empty : well_stored empty_world.
Proof. intros id row H. cbn in H. rewrite lookup_empty in H. discriminate H. Qed.

Lemma well_stored_save n w :
  well_stored w -> well_stored (snd (save_notification n w)).
Proof.
  intros Hw. unfold save_notification.
  destruct (notification_to_row n) as [row|] eqn:Hrow;
    unfold bind, modify, ret; cbn; [|exact Hw].
  intros id row'. unfold set_notifications; cbn.
  destruct (decide (id = notification_id n)) as [->|Hne].
  - rewrite lookup_insert_eq. intros [= <-].
    rewrite (row_round_trip n row Hrow).
    assert (Hm : is_Some (to_json (PyDict (metadata n)))).
    { apply (notification_to_row_Some n). rewrite Hrow. eauto. }
    rewrite (metadata_round_trip_listify _ Hm). cbn. eauto.
  - rewrite lookup_insert_ne by congruence. apply Hw.
Qed.

(** X10.  When every stored row converts, [get_pending_notifications]
    returns exactly the stored notifications whose status is PENDING or
    RETRYING, the oldest first, and changes nothing. *)
Theorem get_pending_notifications_oldest_first (w : World) :
  well_stored w ->
  let pending := fst (get_pending_notifications w) in
  (forall n, n ∈ pending <->
             (exists id, fst (get_notification id w) = Some n)
             /\ (status n = PENDING \/ status n = RETRYING))
  /\ StronglySorted earlier pending
  /\ snd (get_pending_notifications w) = w.
Proof.
  intros Hw. unfold get_pending_notifications, bind, get_world, ret.
  cbn [fst snd].
  set (rows := merge_sort created_before
                 (filter (fun r => is_pending_row r = true) (table_rows w))).
  assert (Hrows : forall r, r ∈ rows <->
                    is_pending_row r = true
                    /\ exists id, notifications w !! id = Some r).
  { intros r. unfold rows. rewrite merge_sort_Permutation.
    rewrite list_elem_of_filter, elem_of_table_rows. reflexivity. }
  assert (Hk : mapM _row_to_notification rows
               = Some (rows_to_notifications rows)).
  { apply rows_to_notifications_Some. apply List.Forall_forall.
    intros r Hr. apply list_elem_of_In, Hrows in Hr as (_ & id & Hid).
    exact (Hw id r Hid). }
  split; [|split; [|reflexivity]].
  - intros n. rewrite (elem_of_mapM _ _ _ n Hk). split.
    + intros (r & Hr & Hn). apply Hrows in Hr as (Hp & id & Hid). split.
      * exists id. rewrite get_notification_lookup, Hid. exact Hn.
      * apply (is_pending_row_status r n Hn). exact Hp.
    + intros ([id Hid] & Hst). rewrite get_notification_lookup in Hid.
      destruct (notifications w !! id) as [r|] eqn:Hr; [|discriminate Hid].
      cbn in Hid. exists r. split; [|exact Hid].
      apply Hrows. split; [|eauto].
      apply (is_pending_row_status r n Hid). exact Hst.
  - apply (rows_sorted created_before earlier rows _); [|exact Hk|].
    + intros r1 r2 n1 n2 H1 H2. unfold created_before, earlier.
      apply row_fields in H1 as [-> _]. apply row_fields in H2 as [-> _].
      auto.
    + pose proof created_before_total. pose proof created_before_trans.
      apply StronglySorted_merge_sort; assumption.
Qed.

Lemma get_pending_notifications_oldest_first_witness :
  well_stored staged_store
  /\ (forall n, n ∈ fst (get_pending_notifications staged_store) <->
        (exists id, fst (get_notification id staged_store) = Some n)
        /\ (status n = PENDING \/ status n = RETRYING))
  /\ StronglySorted earlier (fst (get_pending_notifications staged_store))
  /\ snd (get_pending_notifications staged_store) = staged_store.
Proof.
  assert (H : well_stored staged_store).
  { unfold staged_store. repeat apply well_stored_save.
    exact well_stored_empty. }
  split; [exact H|].
  exact (get_pending_notifications_oldest_first staged_store H).
Defined.

Lemma sql_limit_sublist {A} limit (l : list A) : sql_limit limit l `sublist_of` l.
Proof.
  unfold sql_limit. destruct (limit <? 0); [reflexivity|apply sublist_take].
Qed.

Lemma sql_limit_length {A} limit (l : list A) :
  limit < 0 \/ Z.of_nat (length (sql_limit limit l)) <= limit.
Proof.
  unfold sql_limit. destruct (limit <? 0) eqn:E.
  - left. apply Z.ltb_lt. exact E.
  - right. apply Z.ltb_ge in E. rewrite length_take. lia.
Qed.

Lemma StronglySorted_sublist {A} (R : relation A) l k :
  k `sublist_of` l -> StronglySorted R l -> StronglySorted R k.
Proof.
  intros Hsub. induction Hsub as [|x k l Hsub IH|x k l Hsub IH]; intros Hs.
  - constructor.
  - apply StronglySorted_inv in Hs as [Hs Hall].
    constructor; [exact (IH Hs)|].
    rewrite List.Forall_forall in *. intros y Hy. apply Hall.
    apply list_elem_of_In. apply list_elem_of_In in Hy.
    exact (elem_of_sublist _ _ _ Hy Hsub).
  - apply StronglySorted_inv in Hs as [Hs _]. exact (IH Hs).
Qed.

(** X11.  [get_notifications_by_status] returns stored notifications of
    the status asked for only, the newest first, and no more than the
    limit unless the limit is negative; it changes nothing. *)
Theorem get_notifications_by_status_newest_first
    (st : NotificationStatus) (limit : Z) (w : World) :
  let found := fst (get_notifications_by_status st limit w) in
  (forall n, n ∈ found ->
             status n = st
             /\ exists id, fst (get_notification id w) = Some n)
  /\ StronglySorted later found
  /\ (limit < 0 \/ Z.of_nat (length found) <= limit)
  /\ snd (get_notifications_by_status st limit w) = w.
Proof.
  unfold get_notifications_by_status, bind, get_world, ret.
  destruct (sqlite_integer limit) as [limit'|] eqn:Hl; cbn [fst snd].
  2:{ split; [intros n Hn; apply elem_of_nil in Hn; destruct Hn|].
      split; [constructor|]. split; [|reflexivity].
      unfold sqlite_integer in Hl. cbn [length].
      assert (Hpow : 0 < 2 ^ 63) by reflexivity.
      destruct (- 2 ^ 63 <=? limit) eqn:E1; [|apply Z.leb_gt in E1; lia].
      destruct (limit <? 2 ^ 63) eqn:E2; [discriminate Hl|].
      apply Z.ltb_ge in E2. lia. }
  apply sqlite_integer_Some in Hl. subst limit'.
  set (sorted := merge_sort created_after
                   (filter (fun r => col_status r = status_value st)
                      (table_rows w))).
  set (rows := sql_limit limit sorted).
  assert (Hrows : forall r, r ∈ rows ->
                    col_status r = status_value st
                    /\ exists id, notifications w !! id = Some r).
  { intros r Hr.
    apply (fun H => elem_of_sublist _ _ _ H (sql_limit_sublist limit sorted))
      in Hr.
    unfold sorted in Hr. rewrite merge_sort_Permutation in Hr.
    rewrite list_elem_of_filter, elem_of_table_rows in Hr. exact Hr. }
  unfold rows_to_notifications.
  destruct (mapM _row_to_notification rows) as [k|] eqn:Hk;
    cbn [default fst snd].
  2:{ split; [intros n Hn; apply elem_of_nil in Hn; destruct Hn|].
      split; [constructor|]. split; [|reflexivity].
      destruct (Z_lt_le_dec limit 0); [left; assumption|right; cbn; lia]. }
  split; [|split; [|split; [|reflexivity]]].
  - intros n Hn. apply (elem_of_mapM _ _ _ n Hk) in Hn as (r & Hr & Hn).
    apply Hrows in Hr as (Hst & id & Hid). split.
    + apply row_fields in Hn as [_ Hn]. rewrite Hn in Hst.
      destruct (status n), st; try discriminate Hst; reflexivity.
    + exists id. rewrite get_notification_lookup, Hid. exact Hn.
  - apply (rows_sorted created_after later rows _); [|exact Hk|].
    + intros r1 r2 n1 n2 H1 H2. unfold created_after, later.
      apply row_fields in H1 as [-> _]. apply row_fields in H2 as [-> _].
      auto.
    + apply (StronglySorted_sublist _ sorted); [apply sql_limit_sublist|].
      pose proof created_after_total. pose proof created_after_trans.
      apply StronglySorted_merge_sort; assumption.
  - change (limit < 0 \/ Z.of_nat (length k) <= limit).
    apply mapM_Some in Hk. apply Forall2_length in Hk. rewrite <- Hk.
    apply sql_limit_length.
Qed.

(* ================================================================== *)
(** * More on the rule registry *)
(* ================================================================== *)

Lemma dict_get_set_eq {V} k (v : V) d : dict_get k (dict_set k v d) = Some v.
Proof.
  induction d as [|[k' v'] d IH]; cbn.
  - rewrite String.eqb_refl. reflexivity.
  - destruct (String.eqb k' k) eqn:E; cbn.
    + rewrite String.eqb_refl. reflexivity.
    + rewrite E. exact IH.
Qed.

Lemma dict_get_set_ne {V} k k0 (v : V) d :
  k0 <> k -> dict_get k0 (dict_set k v d) = dict_get k0 d.
Proof.
  intros Hne. induction d as [|[k' v'] d IH]; cbn.
  - destruct (String.eqb k k0) eqn:E; [|reflexivity].
    apply String.eqb_eq in E. congruence.
  - destruct (String.eqb k' k) eqn:E; cbn.
    + apply String.eqb_eq in E. subst k'.
      destruct (String.eqb k k0) eqn:E'; [|reflexivity].
      apply String.eqb_eq in E'. congruence.
    + rewrite IH. reflexivity.
Qed.

Lemma dict_set_keys {V} k (v : V) d :
  map fst (dict_set k v d)
  = if decide (k ∈ map fst d) then map fst d else map fst d ++ [k].
Proof.
  induction d as [|[k' v'] d IH]; cbn.
  - destruct (decide (k ∈ [])) as [H|H]; [|reflexivity].
    apply elem_of_nil in H. destruct H.
  - destruct (String.eqb k' k) eqn:E.
    + apply String.eqb_eq in E. subst k'. cbn.
      destruct (decide (k ∈ k :: map fst d)) as [H|H]; [reflexivity|].
      exfalso. apply H. left.
    + apply String.eqb_neq in E. cbn. rewrite IH.
      destruct (decide (k ∈ map fst d)) as [H|H];
        destruct (decide (k ∈ k' :: map fst d)) as [H'|H'];
        try reflexivity.
      * exfalso. apply H'. right. exact H.
      * exfalso. apply elem_of_cons in H' as [->|H']; [congruence|auto].
Qed.

(** X12.  After [register_rule], [get_rule] finds the rule under its
    name and every other name as before; a name that was registered
    keeps its place in the registry, a new name goes last, so that no
    name is ever listed twice. *)
Theorem register_rule_then_get_rule (rule : AlertRule) (w : World) :
  let w' := snd (register_rule rule w) in
  fst (register_rule rule w) = true
  /\ fst (get_rule (rule_name rule) w') = Some rule
  /\ (forall name, name <> rule_name rule ->
        fst (get_rule name w') = fst (get_rule name w))
  /\ map fst (rules w')
     = (if decide (rule_name rule ∈ map fst (rules w))
        then map fst (rules w)
        else map fst (rules w) ++ [rule_name rule])
  /\ notifications w' = notifications w /\ queue w' = queue w.
Proof.
  unfold register_rule, get_rule, bind, modify, get_world, ret. cbn.
  split; [reflexivity|]. split; [apply dict_get_set_eq|].
  split; [intros name Hne; apply dict_get_set_ne; exact Hne|].
  split; [apply dict_set_keys|]. split; reflexivity.
Qed.

Lemma dict_get_None {V} k (d : list (string * V)) :
  dict_get k d = None <-> k ∉ map fst d.
Proof.
  induction d as [|[k' v] d IH]; cbn.
  - split; [intros _; apply not_elem_of_nil|reflexivity].
  - destruct (String.eqb k' k) eqn:E.
    + apply String.eqb_eq in E. subst k'. split; [discriminate|].
      intros H. exfalso. apply H. left.
    + apply String.eqb_neq in E. rewrite IH, not_elem_of_cons.
      split; [intros H; split; [congruence|exact H]|intros [_ H]; exact H].
Qed.

Lemma dict_get_update_eq {V} (f : V -> V) k d :
  dict_get k (dict_update f k d) = f <$> dict_get k d.
Proof.
  induction d as [|[k' v] d IH]; cbn; [reflexivity|].
  destruct (String.eqb k' k) eqn:E; cbn; rewrite E; [reflexivity|exact IH].
Qed.

Lemma dict_get_update_ne {V} (f : V -> V) k k0 d :
  k0 <> k -> dict_get k0 (dict_update f k d) = dict_get k0 d.
Proof.
  intros Hne. induction d as [|[k' v] d IH]; cbn; [reflexivity|].
  destruct (String.eqb k' k) eqn:E; cbn.
  - apply String.eqb_eq in E. subst k'.
    destruct (String.eqb k k0) eqn:E'; [|reflexivity].
    apply String.eqb_eq in E'. congruence.
  - rewrite IH. reflexivity.
Qed.

Lemma dict_update_absent {V} (f : V -> V) k d :
  k ∉ map fst d -> dict_update f k d = d.
Proof.
  induction d as [|[k' v] d IH]; cbn; [reflexivity|].
  intros H. apply not_elem_of_cons in H as [Hne H].
  destruct (String.eqb k' k) eqn:E.
  - apply String.eqb_eq in E. congruence.
  - rewrite (IH H). reflexivity.
Qed.

(** The rules that fire once the rule under [name] is disabled. *)
Lemma disabled_rule_filtered event_data name d :
  NoDup (map fst d) ->
  filter (selects event_data)
    (map snd (dict_update (set_enabled false) name d))
  = filter (selects event_data) (map snd (without_key name d)).
Proof.
  unfold without_key.
  induction d as [|[k v] d IH]; cbn [dict_update map fst]; [reflexivity|].
  intros Hnd. apply NoDup_cons in Hnd as [Hk Hnd].
  destruct (String.eqb k name) eqn:E.
  - apply String.eqb_eq in E. subst k.
    rewrite filter_cons_False by (cbn; congruence).
    cbn [map snd]. rewrite filter_cons_False
      by (unfold selects; cbn; intros [H _]; discriminate H).
    f_equal. f_equal. symmetry.
    clear IH Hnd. induction d as [|[k v'] d IH]; [reflexivity|].
    cbn in Hk. apply not_elem_of_cons in Hk as [Hne Hk].
    rewrite filter_cons_True by (cbn; congruence).
    rewrite (IH Hk) at 1. reflexivity.
  - apply String.eqb_neq in E.
    rewrite filter_cons_True by (cbn; exact E).
    cbn [map snd]. rewrite !filter_cons. rewrite (IH Hnd). reflexivity.
Qed.

(** X13.  [disable_rule] returns whether the name is registered, and
    changes nothing when it is not.  When no name is listed twice,
    events evaluated afterwards select the rules they would select if
    the entry under that name were not there: the disabled rule does not
    fire, every other rule fires as before. *)
Theorem disabled_rule_does_not_fire (name : string) (w : World) :
  NoDup (map fst (rules w)) ->
  let (ok, w') := disable_rule name w in
  (ok = true <-> is_Some (fst (get_rule name w)))
  /\ (ok = false -> w' = w)
  /\ fst (get_rule name w') = set_enabled false <$> fst (get_rule name w)
  /\ (forall other, other <> name ->
        fst (get_rule other w') = fst (get_rule other w))
  /\ (forall event_data,
        fst (evaluate_event event_data w')
        = filter (selects event_data)
            (map snd (without_key name (rules w)))).
Proof.
  intros Hnd. unfold disable_rule, get_rule, bind, get_world, ret, modify.
  cbn [fst snd].
  destruct (dict_get name (rules w)) as [r|] eqn:Hget;
    cbn [fst snd rules set_rules].
  - split; [split; [eauto|reflexivity]|]. split; [discriminate|].
    split; [rewrite dict_get_update_eq, Hget; reflexivity|].
    split; [intros other Hne; apply dict_get_update_ne; exact Hne|].
    intros event_data. rewrite evaluate_event_filter. cbn [fst].
    apply disabled_rule_filtered. exact Hnd.
  - split; [split; [discriminate|intros [x Hx]; discriminate Hx]|].
    split; [reflexivity|]. split; [rewrite Hget; reflexivity|].
    split; [reflexivity|].
    intros event_data. rewrite evaluate_event_filter. cbn [fst].
    apply dict_get_None in Hget. unfold without_key.
    f_equal. f_equal. clear Hnd.
    induction (rules w) as [|[k v] d IH]; [reflexivity|].
    cbn in Hget. apply not_elem_of_cons in Hget as [Hne Hget].
    rewrite filter_cons_True by (cbn; congruence).
    rewrite <- (IH Hget). reflexivity.
Qed.

Lemma sample_registry_keys :
  map fst (rules sample_registry_world)
  = ["migration_failure"; "broken"; "disabled"; "failure_page"].
Proof. vm_compute. reflexivity. Qed.

Lemma disabled_rule_does_not_fire_witness :
  NoDup (map fst (rules sample_registry_world))
  /\ fst (evaluate_event failure_event
            (snd (disable_rule "migration_failure" sample_registry_world)))
     = [failure_page].
Proof.
  assert (Hnd : NoDup (map fst (rules sample_registry_world))).
  { rewrite sample_registry_keys. apply NoDup_ListNoDup.
    repeat constructor; cbn; intuition discriminate. }
  split; [exact Hnd|].
  pose proof (disabled_rule_does_not_fire "migration_failure"
                sample_registry_world Hnd) as H.
  destruct (disable_rule "migration_failure" sample_registry_world)
    as [ok w'].
  destruct H as (_ & _ & _ & _ & H). cbn [snd]. rewrite (H failure_event).
  vm_compute. reflexivity.
Defined.

Lemma set_enabled_back r :
  enabled r = true -> set_enabled true (set_enabled false r) = r.
Proof. destruct r. cbn. intros ->. reflexivity. Qed.

Lemma dict_update_back {V} (f g : V -> V) k d v :
  dict_get k d = Some v -> g (f v) = v ->
  dict_update g k (dict_update f k d) = d.
Proof.
  intros Hget Hv. induction d as [|[k' v'] d IH]; cbn in *; [discriminate|].
  destruct (String.eqb k' k) eqn:E; cbn; rewrite E.
  - injection Hget as ->. rewrite Hv. reflexivity.
  - rewrite (IH Hget). reflexivity.
Qed.

Lemma disable_rule_result name w :
  disable_rule name w
  = match dict_get name (rules w) with
    | Some _ =>
        (true, set_rules (dict_update (set_enabled false) name (rules w)) w)
    | None => (false, w)
    end.
Proof.
  unfold disable_rule, get_rule, bind, get_world, ret, modify.
  destruct (dict_get name (rules w)); reflexivity.
Qed.

Lemma enable_rule_result name w :
  enable_rule name w
  = match dict_get name (rules w) with
    | Some _ =>
        (true, set_rules (dict_update (set_enabled true) name (rules w)) w)
    | None => (false, w)
    end.
Proof.
  unfold enable_rule, get_rule, bind, get_world, ret, modify.
  destruct (dict_get name (rules w)); reflexivity.
Qed.

(** X14.  Disabling an enabled rule and enabling it again gives the
    state back: both calls succeed and the registry is as before. *)
Theorem enable_rule_undoes_disable_rule
    (name : string) (rule : AlertRule) (w : World) :
  fst (get_rule name w) = Some rule ->
  enabled rule = true ->
  fst (disable_rule name w) = true
  /\ enable_rule name (snd (disable_rule name w)) = (true, w).
Proof.
  intros Hget Hen.
  assert (Hget' : dict_get name (rules w) = Some rule) by exact Hget.
  rewrite disable_rule_result, Hget'. cbn [fst snd].
  split; [reflexivity|].
  rewrite enable_rule_result. cbn [rules set_rules].
  rewrite dict_get_update_eq, Hget'. cbn [fmap option_fmap option_map].
  f_equal. unfold set_rules. cbn.
  rewrite (dict_update_back _ _ _ _ rule Hget' (set_enabled_back rule Hen)).
  destruct w. reflexivity.
Qed.

Lemma enable_rule_undoes_disable_rule_witness :
  fst (get_rule "failure_page" sample_registry_world) = Some failure_page
  /\ enabled failure_page = true
  /\ enable_rule "failure_page"
       (snd (disable_rule "failure_page" sample_registry_world))
     = (true, sample_registry_world).
Proof.
  assert (H1 : fst (get_rule "failure_page" sample_registry_world)
               = Some failure_page) by (vm_compute; reflexivity).
  split; [exact H1|]. split; [reflexivity|].
  exact (proj2 (enable_rule_undoes_disable_rule "failure_page" failure_page
                  sample_registry_world H1 eq_refl)).
Defined.

(* ================================================================== *)
(** * More on templates *)
(* ================================================================== *)

Lemma append_empty (s : string) : s +:+ EmptyString = s.
Proof.
  induction s as [|c s IH]; [reflexivity|].
  rewrite append_cons, IH. reflexivity.
Qed.

Lemma str_replace_no_open k new s :
  no_open s = true -> str_replace (placeholder k) new s = s.
Proof.
  intros Hs. rewrite str_replace_placeholder.
  rewrite <- (append_empty s) at 1.
  rewrite (replace_from_no_open k new s EmptyString Hs).
  cbn [replace_from]. apply append_empty.
Qed.

(** X15.  A template text without an opening brace is rendered as it
    is, whatever the context: no key and no value can change it. *)
Theorem render_keeps_text_without_placeholder {Any : Type}
    (str : Any -> string) (t : NotificationTemplate)
    (context : list (string * Any)) :
  no_open (template_subject t) = true ->
  no_open (template_body t) = true ->
  render str t context = (template_subject t, template_body t).
Proof.
  intros Hs Hb. unfold render.
  induction context as [|item context IH]; [reflexivity|].
  cbn [fold_left fst snd].
  rewrite (str_replace_no_open _ _ _ Hs), (str_replace_no_open _ _ _ Hb).
  exact IH.
Qed.

Lemma render_keeps_text_without_placeholder_witness :
  no_open (template_subject maintenance_notice) = true
  /\ no_open (template_body maintenance_notice) = true
  /\ render id maintenance_notice [("name", "Ann"); ("}", "{{")]
     = ("Maintenance tonight",
        "The backup runs at 10 pm; set} braces} stay.").
Proof.
  split; [reflexivity|]. split; [reflexivity|].
  exact (render_keeps_text_without_placeholder id maintenance_notice
           [("name", "Ann"); ("}", "{{")] eq_refl eq_refl).
Defined.

(** X16.  After [register_template], [get_template] finds the template
    under its name and every other name as before; [list_templates]
    keeps a name that was registered in its place and puts a new name
    last, so that it lists no name twice. *)
Theorem register_template_then_get_template
    (t : NotificationTemplate)
    (templates : list (string * NotificationTemplate)) :
  let templates' := register_template t templates in
  get_template (template_name t) templates' = Some t
  /\ (forall name, name <> template_name t ->
        get_template name templates' = get_template name templates)
  /\ list_templates templates'
     = (if decide (template_name t ∈ list_templates templates)
        then list_templates templates
        else list_templates templates ++ [template_name t])
  /\ (NoDup (list_templates templates) -> NoDup (list_templates templates')).
Proof.
  unfold register_template, get_template, list_templates. cbv zeta.
  split; [apply dict_get_set_eq|].
  split; [intros name Hne; apply dict_get_set_ne; exact Hne|].
  split; [apply dict_set_keys|].
  intros Hnd. rewrite dict_set_keys.
  destruct (decide (template_name t ∈ map fst templates)) as [Hin|Hout];
    [exact Hnd|].
  apply NoDup_app. split; [exact Hnd|]. split.
  - intros x Hx Hx'. apply list_elem_of_singleton in Hx'. subst x. auto.
  - apply NoDup_singleton.
Qed.


(* ================================================================== *)
(** * A round of the worker loop *)
(* ================================================================== *)

(** What a processing step leaves alone. *)
Lemma process_frame env n w :
  let w' := snd (_process_notification env n w) in
  queue w' = queue w
  /\ rules w' = rules w
  /\ ids_generated w' = ids_generated w
  /\ (forall id, id <> notification_id n ->
        notifications w' !! id = notifications w !! id).
Proof.
  cbv zeta. remember (snd (_process_notification env n w)) as w' eqn:Hw'.
  unfold _process_notification in Hw'.
  destruct (decide (status n = SENT)); [subst w'; cbn; auto|].
  unfold bind at 1 in Hw'.
  destruct (send_cases env n w) as (b & e & k & Hsend & He).
  rewrite Hsend in Hw'.
  destruct (with_error_fields e n) as (_ & _ & _ & _ & Hid).
  destruct b; [|destruct (retry_count (with_error e n)
                          <? max_retries (with_error e n))];
    revert Hw'; run_monad.
  - destruct (notification_to_row _); cbn; intros ->; cbn;
      (split; [reflexivity|]); (split; [reflexivity|]);
      (split; [reflexivity|]); intros id Hne;
      try reflexivity; rewrite lookup_insert_ne; try reflexivity;
      rewrite Hid; congruence.
  - destruct (backoff_minutes (retry_count (with_error e n) + 1)) as [m|];
      cbn; [|intros ->; cbn; auto].
    destruct (datetime_add (clock env (utcnow_calls w))
                (timedelta_of_minutes m)); cbn; [|intros ->; cbn; auto].
    destruct (notification_to_row _); cbn; intros ->; cbn;
      (split; [reflexivity|]); (split; [reflexivity|]);
      (split; [reflexivity|]); intros id Hne;
      try reflexivity; rewrite lookup_insert_ne; try reflexivity;
      rewrite Hid; congruence.
  - destruct (notification_to_row _); cbn; intros ->; cbn;
      (split; [reflexivity|]); (split; [reflexivity|]);
      (split; [reflexivity|]); intros id Hne;
      try reflexivity; rewrite lookup_insert_ne; try reflexivity;
      rewrite Hid; congruence.
Qed.

Lemma same_frame_refl w : same_frame w w.
Proof. unfold same_frame. auto. Qed.

Lemma same_frame_trans w1 w2 w3 :
  same_frame w1 w2 -> same_frame w2 w3 -> same_frame w1 w3.
Proof.
  unfold same_frame. intros (H1 & H2 & H3) (H1' & H2' & H3').
  rewrite H1', H2', H3'. auto.
Qed.

Lemma process_same_frame env n w :
  same_frame w (snd (_process_notification env n w)).
Proof.
  destruct (process_frame env n w) as (H1 & H2 & H3 & _).
  unfold same_frame. auto.
Qed.

Lemma process_if_due_frame env n w :
  same_frame w (snd (process_if_due env n w)).
Proof.
  unfold process_if_due.
  destruct (next_retry n) as [t|].
  - unfold bind at 1. unfold utcnow. cbn [fst snd].
    destruct (clock env (utcnow_calls w) <? t);
      [unfold same_frame; cbn; auto|].
    unfold bind, ret.
    pose proof (process_same_frame env n
                  (set_utcnow_calls (S (utcnow_calls w)) w)) as H.
    destruct (_process_notification env n
                (set_utcnow_calls (S (utcnow_calls w)) w)) as [n' w'].
    exact (same_frame_trans w (set_utcnow_calls (S (utcnow_calls w)) w) w'
             (conj eq_refl (conj eq_refl eq_refl)) H).
  - unfold bind, ret.
    pose proof (process_same_frame env n w) as H.
    destruct (_process_notification env n w) as [n' w']. exact H.
Qed.

Lemma process_pending_frame env pending w :
  same_frame w (snd (process_pending env pending w)).
Proof.
  revert w.
  induction pending as [|n pending IH]; intros w; [apply same_frame_refl|].
  cbn [process_pending]. unfold bind.
  pose proof (process_if_due_frame env n w) as Hf.
  destruct (process_if_due env n w) as [u w1]. cbn [snd] in Hf.
  exact (same_frame_trans _ _ _ Hf (IH w1)).
Qed.

Lemma process_queue_item_frame env w :
  let w1 := snd (process_queue_item env w) in
  queue w1 = tail (queue w) /\ rules w1 = rules w
  /\ ids_generated w1 = ids_generated w.
Proof.
  cbv zeta. remember (snd (process_queue_item env w)) as w1 eqn:Hw1.
  unfold process_queue_item in Hw1. unfold bind at 1 in Hw1.
  unfold get_world in Hw1.
  destruct (queue w) as [|n rest] eqn:Hq; [subst w1; cbn; auto|].
  unfold bind, modify, ret in Hw1.
  pose proof (process_same_frame env n (set_queue rest w)) as H.
  destruct (_process_notification env n (set_queue rest w)) as [n' w2].
  cbn [snd] in *. subst w1. destruct H as (H1 & H2 & H3).
  rewrite H1, H2, H3. cbn. auto.
Qed.

(** X18.  A round of the worker loop takes one notification from the
    queue, the one that was put there first, and puts none back; it
    changes neither the rules nor the identifiers handed out. *)
Theorem worker_round_takes_first_of_queue (env : Env) (w : World) :
  let w' := snd (worker_round env w) in
  queue w' = tail (queue w)
  /\ rules w' = rules w
  /\ ids_generated w' = ids_generated w.
Proof.
  cbv zeta. remember (snd (worker_round env w)) as w' eqn:Hw'.
  unfold worker_round in Hw'. unfold bind at 1 in Hw'.
  pose proof (process_queue_item_frame env w) as Hitem. cbv zeta in Hitem.
  destruct (process_queue_item env w) as [u w1]. cbn [snd] in Hitem.
  destruct Hitem as (Hq & Hr & Hi).
  unfold get_pending_notifications, bind, get_world, ret in Hw'.
  cbv beta iota zeta in Hw'.
  match type of Hw' with
  | context [process_pending env ?l w1] =>
      destruct (process_pending_frame env l w1) as (Hq' & Hr' & Hi')
  end.
  subst w'. rewrite Hq', Hr', Hi'. auto.
Qed.

Lemma worker_round_result env w :
  worker_round env w
  = process_pending env
      (fst (get_pending_notifications (snd (process_queue_item env w))))
      (snd (process_queue_item env w)).
Proof.
  unfold worker_round. unfold bind at 1.
  destruct (process_queue_item env w) as [u w1]. reflexivity.
Qed.

Lemma process_queue_item_empty env w :
  queue w = [] -> process_queue_item env w = (tt, w).
Proof.
  intros Hq. unfold process_queue_item, bind, get_world. rewrite Hq.
  reflexivity.
Qed.

Lemma set_utcnow_calls_twice a b w :
  set_utcnow_calls a (set_utcnow_calls b w) = set_utcnow_calls a w.
Proof. reflexivity. Qed.

(** Notifications whose retry is not due are passed over: the clock is
    read once for each. *)
Lemma process_pending_not_due env pending w :
  (forall i n, pending !! i = Some n ->
     exists t, next_retry n = Some t
               /\ clock env (utcnow_calls w + i) < t) ->
  process_pending env pending w
  = (tt, set_utcnow_calls (utcnow_calls w + length pending) w).
Proof.
  revert w. induction pending as [|n pending IH]; intros w Hdue.
  - cbn. rewrite Nat.add_0_r. destruct w; reflexivity.
  - destruct (Hdue 0%nat n eq_refl) as (t & Ht & Hlt).
    rewrite Nat.add_0_r in Hlt. apply Z.ltb_lt in Hlt.
    cbn [process_pending]. unfold bind at 1.
    unfold process_if_due. rewrite Ht. unfold bind at 1, utcnow.
    rewrite Hlt. unfold ret at 1. cbv beta iota.
    rewrite IH.
    + cbn [utcnow_calls set_utcnow_calls length].
      rewrite set_utcnow_calls_twice. f_equal. f_equal. lia.
    + intros i n' Hi. destruct (Hdue (S i) n' Hi) as (t' & Ht' & Hlt').
      exists t'. split; [exact Ht'|].
      cbn [utcnow_calls set_utcnow_calls].
      replace (S (utcnow_calls w) + i)%nat with (utcnow_calls w + S i)%nat
        by lia.
      exact Hlt'.
Qed.

(** X19.  With an empty queue and every pending notification waiting
    for a retry that is not due at any clock reading of the round, a
    round of the worker loop makes no delivery attempt and changes
    neither the store, the audit log nor the counters: all it does is
    read the clock once for each pending notification. *)
Theorem worker_round_waits_for_next_retry (env : Env) (w : World) :
  queue w = [] ->
  (forall n, n ∈ fst (get_pending_notifications w) ->
     exists t, next_retry n = Some t
               /\ forall k,
                    (utcnow_calls w <= k
                     < utcnow_calls w
                       + length (fst (get_pending_notifications w)))%nat ->
                    clock env k < t) ->
  worker_round env w
  = (tt, set_utcnow_calls
           (utcnow_calls w + length (fst (get_pending_notifications w))) w).
Proof.
  intros Hq Hdue.
  rewrite worker_round_result, (process_queue_item_empty env w Hq).
  cbn [snd]. apply process_pending_not_due.
  intros i n Hi.
  destruct (Hdue n) as (t & Ht & Hlt).
  { apply list_elem_of_lookup. eauto. }
  exists t. split; [exact Ht|]. apply Hlt.
  apply lookup_lt_Some in Hi. lia.
Qed.

Lemma waiting_store_pending :
  fst (get_pending_notifications waiting_store) = [retried_once].
Proof. vm_compute. reflexivity. Qed.

Lemma worker_round_waits_for_next_retry_witness :
  queue waiting_store = []
  /\ worker_round offline_env waiting_store
     = (tt, set_utcnow_calls 1 waiting_store).
Proof.
  assert (Hq : queue waiting_store = []) by (vm_compute; reflexivity).
  split; [exact Hq|].
  assert (Hdue : forall n,
    n ∈ fst (get_pending_notifications waiting_store) ->
    exists t, next_retry n = Some t
              /\ forall k,
                   (utcnow_calls waiting_store <= k
                    < utcnow_calls waiting_store
                      + length (fst (get_pending_notifications
                                       waiting_store)))%nat ->
                   clock offline_env k < t).
  { rewrite waiting_store_pending. intros n Hn.
    apply list_elem_of_singleton in Hn. subst n.
    eexists. split; [vm_compute; reflexivity|].
    intros k Hk.
    assert (Hk0 : k = 0%nat)
      by (change (utcnow_calls waiting_store) with 0%nat in Hk;
          cbn [length] in Hk; lia).
    subst k. vm_compute. reflexivity. }
  rewrite (worker_round_waits_for_next_retry offline_env waiting_store
             Hq Hdue).
  rewrite waiting_store_pending. reflexivity.
Defined.







(* ================================================================== *)
(** * More on the facade *)
(* ================================================================== *)


(* ================================================================== *)
(** * What processing does to the notification *)
(* ================================================================== *)

Lemma with_error_content e n :
  notification_id (with_error e n) = notification_id n
  /\ level (with_error e n) = level n
  /\ subject (with_error e n) = subject n
  /\ body (with_error e n) = body n
  /\ recipients (with_error e n) = recipients n
  /\ created_at (with_error e n) = created_at n
  /\ metadata (with_error e n) = metadata n
  /\ max_retries (with_error e n) = max_retries n
  /\ retry_count (with_error e n) = retry_count n.
Proof. destruct e; cbn; auto 10. Qed.

(** X22.  Processing never touches what a notification says: id, level,
    subject, body, recipients, creation time, metadata and retry limit
    are the same after a processing step, and the retry counter stays
    or grows by one. *)
Theorem processing_keeps_content
    (env : Env) (n : Notification) (w : World) :
  let n' := fst (_process_notification env n w) in
  notification_id n' = notification_id n
  /\ level n' = level n
  /\ subject n' = subject n
  /\ body n' = body n
  /\ recipients n' = recipients n
  /\ created_at n' = created_at n
  /\ metadata n' = metadata n
  /\ max_retries n' = max_retries n
  /\ retry_count n <= retry_count n' <= retry_count n + 1.
Proof.
  cbv zeta. destruct (decide (status n = SENT)) as [Hs|Hs].
  { rewrite (process_sent env n w Hs). cbn [fst]. repeat split; lia. }
  rewrite (process_fst env n w Hs).
  destruct (send_cases env n w) as (b & e & k & Hsend & _).
  rewrite Hsend. cbn [fst snd].
  destruct (with_error_content e n)
    as (H1 & H2 & H3 & H4 & H5 & H6 & H7 & H8 & H9).
  unfold after_attempt.
  destruct (attempt_succeeds env n w);
    [|destruct (retry_count (with_error e n) <? max_retries (with_error e n));
      [destruct (retry_time _ _)|]];
    cbn; rewrite ?H1, ?H2, ?H3, ?H4, ?H5, ?H6, ?H7, ?H8, ?H9;
    repeat split; lia.
Qed.

(** X23.  What a delivery attempt leaves in [error_message].  The
    transport is called with the recipients, the subject and the body of
    the notification, as HTML.  When it reports a failure, its error
    text becomes the error message; when it raises, the text of the
    exception does.  When it accepts the message, or when no transport
    is configured, the error message stays as it was: a notification
    sent after a failed attempt keeps the error of that attempt. *)
Theorem attempt_records_error_message
    (env : Env) (n : Notification) (w : World) :
  status n <> SENT ->
  let n' := fst (_process_notification env n w) in
  match email_sender env with
  | None => error_message n' = error_message n /\ status n' <> SENT
  | Some sender =>
      match send_email sender (send_calls w) (recipients n) (subject n)
              (body n) true with
      | Returned true _ =>
          error_message n' = error_message n /\ status n' = SENT
      | Returned false error =>
          error_message n' = error /\ status n' <> SENT
      | Raised message =>
          error_message n' = Some message /\ status n' <> SENT
      end
  end.
Proof.
  intros Hs. cbv zeta. rewrite (process_fst env n w Hs).
  unfold attempt_succeeds, _send_notification.
  destruct (email_sender env) as [sender|].
  - unfold bind, get_world, modify, ret. cbn [fst snd].
    destruct (send_email sender (send_calls w) (recipients n) (subject n)
                (body n) true) as [[|] err|msg]; cbn [fst snd];
      unfold after_attempt; cbn [fst snd];
      try (split; reflexivity);
      match goal with
      | |- context [retry_count ?m <? max_retries ?m] =>
          destruct (retry_count m <? max_retries m);
          [destruct (retry_time _ _)|]
      end; cbn; split; (reflexivity || discriminate).
  - unfold ret. cbn [fst snd]. unfold after_attempt.
    destruct (retry_count n <? max_retries n);
      [destruct (retry_time _ _)|]; cbn;
      split; (reflexivity || discriminate).
Qed.

Lemma attempt_records_error_message_witness :
  status sample_notification <> SENT
  /\ error_message
       (fst (_process_notification refusing_env sample_notification
               empty_world))
     = Some "SMTP error: connection refused".
Proof.
  assert (H1 : status sample_notification <> SENT) by discriminate.
  split; [exact H1|].
  exact (proj1 (attempt_records_error_message refusing_env
                  sample_notification empty_world H1)).
Defined.

(* ================================================================== *)
(** * The sweep and the worker *)
(* ================================================================== *)

Lemma filter_fmap_fixed {A} (P : A -> Prop) `{!forall x, Decision (P x)}
    (g : A -> A) l :
  (forall x, P x -> g x = x) -> (forall x, P (g x) -> P x) ->
  filter P (map g l) = filter P l.
Proof.
  intros Hfix Hback. induction l as [|x l IH]; [reflexivity|].
  cbn [map]. rewrite !filter_cons.
  destruct (decide (P x)) as [Hx|Hx].
  - rewrite (Hfix x Hx). destruct (decide (P x)); [|contradiction].
    rewrite IH. reflexivity.
  - destruct (decide (P (g x))) as [Hg|Hg]; [|exact IH].
    exfalso. apply Hx, Hback, Hg.
Qed.

(** The pending rows of a swept table. *)
Lemma swept_pending_rows (where_ : Row -> bool) (t : gmap string Row) :
  (forall r, where_ r = true -> col_status r = status_value SENT) ->
  filter (fun r => is_pending_row r = true)
    (map snd (map_to_list
       (fst (sql_update where_ (set_col_status (status_value ARCHIVED)) t))))
  = filter (fun r => is_pending_row r = true) (map snd (map_to_list t)).
Proof.
  intros Hwhere. unfold sql_update. cbn [fst].
  rewrite map_to_list_fmap.
  change (map snd (prod_map id ?g <$> ?l)) with (snd <$> (prod_map id g <$> l)).
  rewrite <- list_fmap_compose.
  change (snd ∘ prod_map id ?g) with (g ∘ (@snd string Row)).
  rewrite list_fmap_compose.
  change (?g <$> (snd <$> ?l)) with (map g (map snd l)).
  apply filter_fmap_fixed.
  - intros r Hr. destruct (where_ r) eqn:E; [|reflexivity].
    apply Hwhere in E. unfold is_pending_row in Hr. rewrite E in Hr.
    discriminate Hr.
  - intros r. destruct (where_ r) eqn:E; [|auto].
    unfold is_pending_row. cbn. discriminate.
Qed.

(** X24.  The sweep does not disturb the worker:
    [get_pending_notifications] returns the same list after
    [cleanup_old_notifications] as before it, whatever [days] is. *)
Theorem cleanup_keeps_pending_notifications
    (env : Env) (days : Z) (w : World) :
  fst (get_pending_notifications
         (snd (cleanup_old_notifications env days w)))
  = fst (get_pending_notifications w).
Proof.
  rewrite cleanup_result.
  destruct (cutoff_date env w days) as [c|]; [|reflexivity].
  unfold get_pending_notifications, bind, get_world, ret, table_rows.
  cbn [fst snd notifications set_notifications].
  f_equal. f_equal.
  apply swept_pending_rows.
  intros r Hr. apply andb_true_iff in Hr as [_ Hr].
  apply String.eqb_eq in Hr. exact Hr.
Qed.
